(** * Semantic-token highlights of one buffer (coc.nvim)

    A shallow embedding of [src/handler/semanticTokensHighlights/buffer.ts]:
    the decoding of a flat semantic-token array into highlight items, the
    application of delta edits to the cached array, and the life cycle of a
    [SemanticTokensBuffer] (debounce timer, cancellation, result cache).

    JavaScript numbers are modelled by [Z], together with [NaN] and
    [undefined] where the code can produce them; integer arithmetic on
    doubles is exact below 2^53, which is the range this model speaks about.
    Bitwise operators go through [ToInt32] with the wrap-around written out.
    Exceptions are explicit: a function that can throw returns a
    [completion]. Token arrays are objects with an identity: they live in a
    store and are spliced in place, as in the source. *)

From Stdlib Require Import ZArith Lia.
From stdpp Require Import base option list strings gmap.

Open Scope Z_scope.

(** ** The fragment of JavaScript the file relies on *)
Module JS.

(** What an expression of type [number | undefined] evaluates to here. *)
Inductive value : Type :=
| Num (z : Z)
| NaN
| Undefined.

(** [a + b] on numbers; [undefined] converts to [NaN], which is absorbing. *)
Definition add (a b : value) : value :=
  match a, b with
  | Num x, Num y => Num (x + y)
  | _, _ => NaN
  end.

(** [v === 0] *)
Definition is_zero (v : value) : bool :=
  match v with
  | Num 0 => true
  | _ => false
  end.

(** [a[i]] for an array of integers: a read past the end is [undefined]. *)
Definition index (a : list Z) (i : nat) : value :=
  match a !! i with
  | Some z => Num z
  | None => Undefined
  end.

(** [names[v]] for an array of strings indexed by a value: only a
    non-negative integer inside the array names an element; every other
    key ([-1], [NaN], [undefined]) is an absent property. *)
Definition index_by (names : list string) (v : value) : option string :=
  match v with
  | Num z => if 0 <=? z then names !! Z.to_nat z else None
  | _ => None
  end.

(** Two's-complement wrap-around to 32 bits, signed. *)
Definition wrap32 (z : Z) : Z :=
  let r := z mod 2 ^ 32 in
  if 2 ^ 31 <=? r then r - 2 ^ 32 else r.

(** [ToInt32]: [NaN] and [undefined] become 0. *)
Definition ToInt32 (v : value) : Z :=
  match v with
  | Num z => wrap32 z
  | _ => 0
  end.

(** [a << n]: the shift count is taken modulo 32, the result wraps. *)
Definition shl (a : Z) (n : nat) : Z :=
  wrap32 (Z.shiftl (wrap32 a) (Z.of_nat n mod 32)).

(** [a & b] *)
Definition band (a : value) (b : Z) : Z :=
  Z.land (ToInt32 a) (wrap32 b).

(** Truthiness of a number. *)
Definition truthy (z : Z) : bool := negb (z =? 0).

(** [l.filter((x, m) => p m)], [m] counting from [from]. *)
Fixpoint filter_index {A} (p : nat -> bool) (from : nat) (l : list A)
    : list A :=
  match l with
  | [] => []
  | x :: r =>
      if p from then x :: filter_index p (S from) r
      else filter_index p (S from) r
  end.

(** [prefix + name] where [name] may be [undefined]. *)
Definition concat (prefix : string) (name : option string) : string :=
  String.append prefix (default "undefined"%string name).

(** [Array.prototype.splice(start, deleteCount, ...items)] on integer
    arguments: a negative [start] counts from the end, both are clamped
    to the array. Returns the array after the call. *)
Definition splice {A} (a : list A) (start deleteCount : Z) (items : list A)
    : list A :=
  let len := Z.of_nat (List.length a) in
  let actualStart :=
    if start <? 0 then Z.max (len + start) 0 else Z.min start len in
  let actualDeleteCount := Z.min (Z.max deleteCount 0) (len - actualStart) in
  take (Z.to_nat actualStart) a ++ items
    ++ drop (Z.to_nat (actualStart + actualDeleteCount)) a.

(** What is thrown here: a [TypeError] of the language (a property read
    on [null] or [undefined]), or an [Error] made with a message; the
    values that the message quotes are kept beside it. *)
Inductive exception : Type :=
| TypeError
| Error (message : string) (quoted : list value).

(** How a call ends. *)
Inductive completion (A : Type) : Type :=
| Return (a : A)
| Throw (e : exception).
Arguments Return {A} a.
Arguments Throw {A} e.

End JS.

Abbreviation completion := JS.completion.
Abbreviation Return := JS.Return.
Abbreviation Throw := JS.Throw.
Abbreviation TypeError := JS.TypeError.
Abbreviation Error := JS.Error.

(** ** Token decoder: [requestHighlights], lines 132-166 *)
Module Decoder.

Definition HLGROUP_PREFIX : string := "CocSem_".

(** The legend of a document: names of token types and modifiers. *)
Record SemanticTokensLegend : Type := {
  tokenTypes : list string;
  tokenModifiers : list string
}.

Record RelativeHighlight : Type := {
  tokenType : option string;
  tokenModifiers' : list string;
  deltaLine : JS.value;
  deltaStartCharacter : JS.value;
  length : JS.value
}.

Record Position : Type := { line : JS.value; character : JS.value }.
Record Range : Type := { start : Position; end' : Position }.

Definition uinteger_MAX_VALUE : Z := 2147483647.

(** [Is.uinteger(v)] of the protocol library: a number from 0 to
    [uinteger.MAX_VALUE]; [NaN] and [undefined] are none. *)
Definition is_uinteger (v : JS.value) : bool :=
  match v with
  | JS.Num z => (0 <=? z) && (z <=? uinteger_MAX_VALUE)
  | _ => false
  end.

(** [Range.create(one, two, three, four)] of the protocol library, called
    with four values that are no positions: the range of the four numbers
    when each is a [uinteger], an [Error] otherwise. *)
Definition Range_create (one two three four : JS.value) : completion Range :=
  if is_uinteger one && is_uinteger two && is_uinteger three
     && is_uinteger four
  then Return {| start := {| line := one; character := two |};
                 end' := {| line := three; character := four |} |}
  else Throw (Error "Range#create called with invalid arguments"
                [one; two; three; four]).

(** Every field is optional in the source type. *)
Record HighlightItemOption : Type := {
  combine : option bool;
  start_incl : option bool;
  end_incl : option bool
}.

(** Modelled from the spec: [HighlightItem] of [types.ts], which is not
    part of the sources at hand; the spec gives it a group name, a range
    and the options. *)
Record HighlightItem : Type := {
  hlGroup : string;
  range : Range;
  opts : HighlightItemOption
}.

(** Modelled from the spec: [doc.addHighlights] of the document model,
    which is not part of the sources at hand; the spec has it put the
    one item it is given at the end of the target list. *)
Definition addHighlights (res : list HighlightItem) (group : string)
    (r : Range) (o : HighlightItemOption) : list HighlightItem :=
  res ++ [{| hlGroup := group; range := r; opts := o |}].

(** The body of the first loop at the index where [rest] begins:
    [rest] is [tokens] from [i] on, so [tokens[i + k]] is [rest[k]]. *)
Definition relative_at (legend : SemanticTokensLegend) (rest : list Z)
    : RelativeHighlight :=
  let deltaLine := JS.index rest 0 in
  let deltaStartCharacter := JS.index rest 1 in
  let length := JS.index rest 2 in
  let tokenType := JS.index rest 3 in
  let tokenModifiers :=
    JS.filter_index
      (fun m => JS.truthy (JS.band (JS.index rest 4) (JS.shl 1 m)))
      0 (tokenModifiers legend) in
  {| tokenType := JS.index_by (tokenTypes legend) tokenType;
     tokenModifiers' := tokenModifiers;
     deltaLine := deltaLine;
     deltaStartCharacter := deltaStartCharacter;
     length := length |}.

(** [for (let i = 0; i < tokens.length; i += 5)]: one relative highlight
    for each index reached, also when fewer than five numbers are left. *)
Fixpoint relatives (legend : SemanticTokensLegend) (rest : list Z)
    : list RelativeHighlight :=
  match rest with
  | [] => []
  | _ :: tl =>
      relative_at legend rest ::
      match tl with
      | _ :: _ :: _ :: _ :: next => relatives legend next
      | _ => []
      end
  end.

Definition options_of (tokenType : option string) : HighlightItemOption :=
  let opts :=
    {| combine := Some false; start_incl := None; end_incl := None |} in
  if bool_decide (tokenType = Some "variable"%string
                  \/ tokenType = Some "string"%string)
  then {| combine := combine opts;
          start_incl := Some true; end_incl := Some true |}
  else opts.

(** The second loop, with its two cursors and the list under
    construction; it ends at the first [Range.create] that throws. *)
Fixpoint highlight_loop (rels : list RelativeHighlight)
    (currentLine currentCharacter : JS.value) (res : list HighlightItem)
    : completion (list HighlightItem) :=
  match rels with
  | [] => Return res
  | r :: rels' =>
      let lnum := JS.add currentLine (deltaLine r) in
      let startCharacter :=
        if JS.is_zero (deltaLine r)
        then JS.add currentCharacter (deltaStartCharacter r)
        else deltaStartCharacter r in
      let endCharacter := JS.add startCharacter (length r) in
      match Range_create lnum startCharacter lnum endCharacter with
      | Throw e => Throw e
      | Return range =>
          let hlGroup := JS.concat HLGROUP_PREFIX (tokenType r) in
          let opts := options_of (tokenType r) in
          highlight_loop rels' lnum startCharacter
            (addHighlights res hlGroup range opts)
      end
  end.

(** Lines 132-166: from the token array to the list stored in
    [_highlights] and returned, or to the exception of the second loop. *)
Definition decode (legend : SemanticTokensLegend) (tokens : list Z)
    : completion (list HighlightItem) :=
  highlight_loop (relatives legend tokens) (JS.Num 0) (JS.Num 0) [].

End Decoder.

(** ** Delta applier: [requestHighlights], lines 121-130 *)
Module DeltaApplier.

(** Modelled from the spec: [SemanticTokensEdit] of the protocol package,
    which is not part of the sources at hand; the spec gives it a start
    index, a delete count and the numbers to insert. *)
Record SemanticTokensEdit : Type := {
  start : Z;
  deleteCount : Z;
  data : list Z
}.

(** The callback given to [result.edits.forEach]. *)
Definition apply_edit (tokens : list Z) (e : SemanticTokensEdit) : list Z :=
  if 0 <? deleteCount e
  then JS.splice tokens (start e) (deleteCount e) (data e)
  else JS.splice tokens (start e) 0 (data e).

(** [result.edits.forEach(...)] on the array [tokens]. *)
Definition apply_edits (tokens : list Z) (edits : list SemanticTokensEdit)
    : list Z :=
  fold_left apply_edit edits tokens.

End DeltaApplier.

(** ** The buffer object and its life cycle *)
Module Orchestrator.

Definition NAMESPACE : string := "semanticTokens".

(** [tokens] is the array itself, not its content: a reference into the
    store of arrays. *)
Record SemanticTokensPreviousResult : Type := {
  version : Z;
  resultId : option string;
  tokens : option nat
}.

(** What a provider resolves to: [SemanticTokens.is] tells the two apart. *)
Inductive ProviderResult : Type :=
| SemanticTokens (resultId : option string) (data : list Z)
| SemanticTokensDelta (resultId : option string)
    (edits : list DeltaApplier.SemanticTokensEdit).

Definition result_resultId (r : ProviderResult) : option string :=
  match r with
  | SemanticTokens rid _ => rid
  | SemanticTokensDelta rid _ => rid
  end.

(** What [workspace] and [languages] answer about the document of the
    buffer at the time of a call. *)
Record Document : Type := {
  attached : bool;
  textDocument_version : Z;
  getLegend : option Decoder.SemanticTokensLegend;
  hasProvider : bool;
  hasSemanticTokensEdits : bool
}.

Record Env : Type := {
  config_enabled : bool;
  getDocument : option Document
}.

(** The two requests of [languages]; [token] is the identity of the
    [CancellationTokenSource] whose token goes with the request. *)
Inductive Request : Type :=
| provideDocumentSemanticTokens (token : nat)
| provideDocumentSemanticTokensEdits (previousResultId : string) (token : nat).

(** The instance fields. *)
Record SemanticTokensBuffer : Type := {
  tokenSource : option nat;
  _highlights : option (list Decoder.HighlightItem);
  previousResults : option SemanticTokensPreviousResult
}.

(** [get highlights()] *)
Definition highlights (this : SemanticTokensBuffer)
    : option (list Decoder.HighlightItem) :=
  _highlights this.

(** [get previousVersion()] *)
Definition previousVersion (this : SemanticTokensBuffer) : option Z :=
  match previousResults this with
  | None => None
  | Some r => Some (version r)
  end.

(** [get enabled()] *)
Definition enabled (env : Env) : bool :=
  if negb (config_enabled env) then false
  else match getDocument env with
       | None => false
       | Some doc =>
           if negb (attached doc) then false
           else match getLegend doc with
                | None => false
                | Some _ => hasProvider doc
                end
       end.

(** [checkState()]: the four tests of [enabled], each with its error. *)
Definition checkState (env : Env) : completion unit :=
  if negb (config_enabled env)
  then Throw (Error "SemanticTokens highlights disabled by configuration" [])
  else match getDocument env with
       | None => Throw (Error "Document not attached" [])
       | Some doc =>
           if negb (attached doc)
           then Throw (Error "Document not attached" [])
           else match getLegend doc with
                | None => Throw (Error "Legend not exists." [])
                | Some _ =>
                    if negb (hasProvider doc)
                    then Throw (Error "SemanticTokens provider not found, your languageserver may not support it" [])
                    else Return tt
                end
       end.

(** Lines 112-116: which request goes out. A [resultId] counts when it is
    a non-empty string. *)
Definition choose_request (hasEditProvider : bool)
    (previousResult : option SemanticTokensPreviousResult) (token : nat)
    : Request :=
  match hasEditProvider, previousResult ≫= resultId with
  | true, Some rid =>
      if String.eqb rid EmptyString then provideDocumentSemanticTokens token
      else provideDocumentSemanticTokensEdits rid token
  | _, _ => provideDocumentSemanticTokens token
  end.

Section WithDiff.

(** The change set of [window.diffHighlights]: only handed on. *)
Context {Diff : Type}.

(** Calls to the collaborators, as they are made; the buffer number and
    [NAMESPACE], which go with the calls to [window] and to the buffer,
    are left out. *)
Inductive Call : Type :=
| request (r : Request)
| diffHighlights (items : list Decoder.HighlightItem)
| applyDiffHighlights (priority : Z) (diff : Diff)
| clearNamespace
| logError (e : JS.exception)
| rejected (e : JS.exception).

(** An activation of [doHighlight] stopped at one of its [await]s, with
    the locals it resumes with. [forced] tells a call from
    [forceHighlight] from one of the debounced function. *)
Inductive Suspended : Type :=
| AwaitProvider (forced : bool)
    (legend : option Decoder.SemanticTokensLegend)
    (previousResult : option SemanticTokensPreviousResult) (version : Z)
| AwaitDiff (forced : bool).

(** The object together with what its methods act upon. [arrays] is the
    store of token arrays: the array that the response to a request
    brings is kept under the number of that request, and the splices of
    line 125 change it in place, for every holder of the array. *)
Record World : Type := {
  this : SemanticTokensBuffer;
  timer : bool;
  cancelled : gset nat;
  sources : nat;
  suspended : gmap nat Suspended;
  calls : list Call;
  arrays : gmap nat (list Z)
}.

Definition set_this (f : SemanticTokensBuffer -> SemanticTokensBuffer)
    (w : World) : World :=
  {| this := f (this w); timer := timer w; cancelled := cancelled w;
     sources := sources w; suspended := suspended w; calls := calls w;
     arrays := arrays w |}.

Definition set_timer (b : bool) (w : World) : World :=
  {| this := this w; timer := b; cancelled := cancelled w;
     sources := sources w; suspended := suspended w; calls := calls w;
     arrays := arrays w |}.

Definition set_suspended (f : gmap nat Suspended -> gmap nat Suspended)
    (w : World) : World :=
  {| this := this w; timer := timer w; cancelled := cancelled w;
     sources := sources w; suspended := f (suspended w); calls := calls w;
     arrays := arrays w |}.

Definition set_arrays (f : gmap nat (list Z) -> gmap nat (list Z))
    (w : World) : World :=
  {| this := this w; timer := timer w; cancelled := cancelled w;
     sources := sources w; suspended := suspended w; calls := calls w;
     arrays := f (arrays w) |}.

(** The content of an array of the store. *)
Definition content (w : World) (array : nat) : list Z :=
  default [] (arrays w !! array).

Definition call (c : Call) (w : World) : World :=
  {| this := this w; timer := timer w; cancelled := cancelled w;
     sources := sources w; suspended := suspended w;
     calls := calls w ++ [c]; arrays := arrays w |}.

Definition set_tokenSource (s : option nat) (o : SemanticTokensBuffer)
    : SemanticTokensBuffer :=
  {| tokenSource := s; _highlights := _highlights o;
     previousResults := previousResults o |}.

Definition set_highlights (h : list Decoder.HighlightItem)
    (o : SemanticTokensBuffer) : SemanticTokensBuffer :=
  {| tokenSource := tokenSource o; _highlights := Some h;
     previousResults := previousResults o |}.

Definition set_previousResults (r : option SemanticTokensPreviousResult)
    (o : SemanticTokensBuffer) : SemanticTokensBuffer :=
  {| tokenSource := tokenSource o; _highlights := _highlights o;
     previousResults := r |}.

(** The state the constructor leaves: no field is assigned, the
    debounced function has been called once. *)
Definition constructor : World :=
  {| this := {| tokenSource := None; _highlights := None;
                previousResults := None |};
     timer := true; cancelled := ∅; sources := 0;
     suspended := ∅; calls := []; arrays := ∅ |}.

(** [new CancellationTokenSource()] *)
Definition new_source (w : World) : nat * World :=
  (sources w,
   {| this := this w; timer := timer w; cancelled := cancelled w;
      sources := S (sources w); suspended := suspended w;
      calls := calls w; arrays := arrays w |}).

(** [cancel()] *)
Definition cancel (w : World) : World :=
  match tokenSource (this w) with
  | Some s =>
      {| this := set_tokenSource None (this w); timer := timer w;
         cancelled := {[ s ]} ∪ cancelled w; sources := sources w;
         suspended := suspended w; calls := calls w;
         arrays := arrays w |}
  | None => w
  end.

(** [token.isCancellationRequested] *)
Definition isCancellationRequested (w : World) (token : nat) : bool :=
  bool_decide (token ∈ cancelled w).

(** [clearHighlight()] *)
Definition clearHighlight (w : World) : World := call clearNamespace w.

(** How a rejected promise of [doHighlight] surfaces. *)
Definition fail (forced : bool) (e : JS.exception) (w : World) : World :=
  call (if forced then rejected e else logError e) w.

(** [requestHighlights] up to its [await]: lines 106-116. *)
Definition requestHighlights_begin (env : Env) (token : nat)
    (forceFull forced : bool) (w : World) : World :=
  match getDocument env with
  | None => fail forced TypeError w
  | Some doc =>
      let legend := getLegend doc in
      let hasEditProvider := hasSemanticTokensEdits doc in
      let previousResult :=
        if forceFull then None else previousResults (this w) in
      let version := textDocument_version doc in
      set_suspended
        (insert token (AwaitProvider forced legend previousResult version))
        (call (request (choose_request hasEditProvider previousResult token)) w)
  end.

(** Lines 118-130: the token array of a result. The array of a full
    result is a new one, kept under the number of the request; the edits
    of a delta are spliced into the array of the previous result, where
    it is. *)
Definition tokens_of (token : nat)
    (previousResult : option SemanticTokensPreviousResult)
    (result : ProviderResult) (w : World) : World * completion (option nat) :=
  match result with
  | SemanticTokens _ data =>
      (set_arrays (insert token data) w, Return (Some token))
  | SemanticTokensDelta _ edits =>
      match previousResult with
      | None => (w, Throw TypeError)
      | Some r =>
          match tokens r, edits with
          | Some tokens, _ =>
              (set_arrays
                 (insert tokens
                    (DeltaApplier.apply_edits (content w tokens) edits)) w,
               Return (Some tokens))
          | None, [] => (w, Return None)
          | None, _ :: _ => (w, Throw TypeError)
          end
      end
  end.

(** Lines 132-166 under the legend the activation holds: the legend is
    dereferenced in the body of the first loop only. *)
Definition decode_with (legend : option Decoder.SemanticTokensLegend)
    (tokens : option (list Z)) : completion (list Decoder.HighlightItem) :=
  match tokens with
  | None => Throw TypeError
  | Some [] => Return []
  | Some tokens =>
      match legend with
      | None => Throw TypeError
      | Some legend => Decoder.decode legend tokens
      end
  end.

(** [requestHighlights] from its [await] on: lines 117-166. *)
Definition requestHighlights_resume (token : nat)
    (legend : option Decoder.SemanticTokensLegend)
    (previousResult : option SemanticTokensPreviousResult) (version : Z)
    (result : option ProviderResult) (w : World)
    : World * completion (option (list Decoder.HighlightItem)) :=
  if isCancellationRequested w token then (w, Return None)
  else
    match result with
    | None => (w, Return None)
    | Some result =>
        match tokens_of token previousResult result w with
        | (w, Throw e) => (w, Throw e)
        | (w, Return tokens) =>
            let w :=
              set_this (set_previousResults
                (Some {| resultId := result_resultId result;
                         tokens := tokens; version := version |})) w in
            match decode_with legend (content w <$> tokens) with
            | Throw e => (w, Throw e)
            | Return res => (set_this (set_highlights res) w, Return (Some res))
            end
        end
    end.

(** [doHighlight] up to the first [await]: lines 170-173. *)
Definition doHighlight (env : Env) (forced : bool) (w : World) : World :=
  if negb (enabled env) then w
  else
    let w := cancel w in
    let '(tokenSource, w) := new_source w in
    let w := set_this (set_tokenSource (Some tokenSource)) w in
    requestHighlights_begin env tokenSource false forced w.

(** [doHighlight] between the two [await]s: lines 173-176. *)
Definition doHighlight_items (token : nat) (forced : bool)
    (legend : option Decoder.SemanticTokensLegend)
    (previousResult : option SemanticTokensPreviousResult) (version : Z)
    (result : option ProviderResult) (w : World) : World :=
  match requestHighlights_resume token legend previousResult version
          result w with
  | (w, Throw e) => fail forced e w
  | (w, Return None) => w
  | (w, Return (Some items)) =>
      set_suspended (insert token (AwaitDiff forced))
        (call (diffHighlights items) w)
  end.

(** [doHighlight] after the second [await]: lines 177-179. *)
Definition doHighlight_diff (token : nat) (diff : option Diff) (w : World)
    : World :=
  let w := set_this (set_tokenSource None) w in
  if isCancellationRequested w token then w
  else
    match diff with
    | None => w
    | Some diff => call (applyDiffHighlights 99 diff) w
    end.

(** What happens to the buffer: its public methods, the debounce delay
    running out, and the collaborators answering. *)
Inductive Event : Type :=
| onChange
| forceHighlight
| setState (enabled : bool)
| dispose
| timerFires
| providerResponds (token : nat) (result : option ProviderResult)
| diffResponds (token : nat) (diff : option Diff).

Definition step (env : Env) (w : World) (e : Event) : World :=
  match e with
  | onChange => set_timer true (cancel w)
  | forceHighlight => doHighlight env true (set_timer false w)
  | setState true => set_timer true w
  | setState false => clearHighlight (set_timer false w)
  | dispose =>
      cancel
        (set_this (set_previousResults None)
          (set_timer false (set_this (set_highlights []) w)))
  | timerFires =>
      if timer w then doHighlight env false (set_timer false w) else w
  | providerResponds token result =>
      match suspended w !! token with
      | Some (AwaitProvider forced legend previousResult version) =>
          doHighlight_items token forced legend previousResult version result
            (set_suspended (delete token) w)
      | _ => w
      end
  | diffResponds token diff =>
      match suspended w !! token with
      | Some (AwaitDiff _) =>
          doHighlight_diff token diff (set_suspended (delete token) w)
      | _ => w
      end
  end.

(** The numbers of the cached token array. *)
Definition cached_tokens (w : World) : option (list Z) :=
  match previousResults (this w) with
  | Some {| tokens := Some array |} => arrays w !! array
  | _ => None
  end.

(** [w'] has the cache, the token arrays, the snapshot and the calls of
    [w]. *)
Definition untouched (w w' : World) : Prop :=
  previousResults (this w') = previousResults (this w)
  /\ arrays w' = arrays w
  /\ _highlights (this w') = _highlights (this w)
  /\ calls w' = calls w.

(** A sequence of events, each under the environment of its time. *)
Definition run (w : World) (trace : list (Env * Event)) : World :=
  fold_left (fun w ee => step (fst ee) w (snd ee)) trace w.

(** Whether [e] at [w] makes [requestHighlights] return its items. *)
Definition completes_decode (w : World) (e : Event) : bool :=
  match e with
  | providerResponds token result =>
      match suspended w !! token with
      | Some (AwaitProvider _ legend previousResult version) =>
          match requestHighlights_resume token legend previousResult
                  version result (set_suspended (delete token) w) with
          | (_, Return (Some _)) => true
          | _ => false
          end
      | _ => false
      end
  | _ => false
  end.

(** [run], giving up at [dispose] and at a completed decode. *)
Fixpoint run_before_decode (w : World) (trace : list (Env * Event))
    : option World :=
  match trace with
  | [] => Some w
  | (env, e) :: trace' =>
      match e with
      | dispose => None
      | _ =>
          if completes_decode w e then None
          else run_before_decode (step env w e) trace'
      end
  end.

End WithDiff.

Arguments Call : clear implicits.
Arguments Suspended : clear implicits.
Arguments World : clear implicits.
Arguments Event : clear implicits.

End Orchestrator.

(** ** The words of the specification, to compare the decoder with *)
Module Spec.

(** The first and second number of the [i]-th quintuple. *)
Definition deltaLine_of (tokens : list Z) (i : nat) : Z :=
  nth (5 * i)%nat tokens 0.

Definition deltaStartChar_of (tokens : list Z) (i : nat) : Z :=
  nth (5 * i + 1)%nat tokens 0.

Definition length_of (tokens : list Z) (i : nat) : Z :=
  nth (5 * i + 2)%nat tokens 0.

Definition typeIndex_of (tokens : list Z) (i : nat) : Z :=
  nth (5 * i + 3)%nat tokens 0.

(** The line of the [i]-th token: the sum of the line deltas so far. *)
Fixpoint line_of (tokens : list Z) (i : nat) : Z :=
  match i with
  | O => deltaLine_of tokens 0
  | S k => line_of tokens k + deltaLine_of tokens (S k)
  end.

(** Its start character: it restarts at the character delta when the
    line delta is positive and otherwise adds the character delta to the
    start character of the token before (0 before the first). *)
Fixpoint startChar_of (tokens : list Z) (i : nat) : Z :=
  match i with
  | O =>
      if 0 <? deltaLine_of tokens 0 then deltaStartChar_of tokens 0
      else 0 + deltaStartChar_of tokens 0
  | S k =>
      if 0 <? deltaLine_of tokens (S k) then deltaStartChar_of tokens (S k)
      else startChar_of tokens k + deltaStartChar_of tokens (S k)
  end.

(** Positions with integer coordinates, in document order. *)
Definition position_le (p q : Decoder.Position) : Prop :=
  match Decoder.line p, Decoder.character p,
        Decoder.line q, Decoder.character q with
  | JS.Num l1, JS.Num c1, JS.Num l2, JS.Num c2 =>
      l1 < l2 \/ (l1 = l2 /\ c1 <= c2)
  | _, _, _, _ => False
  end.

(** The first [n] tokens stay within the coordinates of the protocol:
    no line and no end character beyond [uinteger.MAX_VALUE]. *)
Definition within_bounds (tokens : list Z) (n : nat) : Prop :=
  forall i, (i < n)%nat ->
    line_of tokens i <= Decoder.uinteger_MAX_VALUE
    /\ startChar_of tokens i + length_of tokens i
       <= Decoder.uinteger_MAX_VALUE.

End Spec.

(** ** Token arrays seen as lists of quintuples *)
Module Quintuples.

Definition quintuple : Type := Z * Z * Z * Z * Z.

Fixpoint flat (qs : list quintuple) : list Z :=
  match qs with
  | [] => []
  | (a, b, c, d, e) :: qs' => a :: b :: c :: d :: e :: flat qs'
  end.

(** The cursor after the token [q] read at the cursor [(l, c)]. *)
Definition advance (cur : Z * Z) (q : quintuple) : Z * Z :=
  let '(a, b, _, _, _) := q in
  (fst cur + a, if a =? 0 then snd cur + b else b).

(** What [Range.create] returns when it returns. *)
Definition range_of (one two three four : JS.value) : Decoder.Range :=
  {| Decoder.start := {| Decoder.line := one; Decoder.character := two |};
     Decoder.end' := {| Decoder.line := three; Decoder.character := four |} |}.

(** The second loop when no [Range.create] throws: the items it builds. *)
Fixpoint loop_items (rels : list Decoder.RelativeHighlight)
    (currentLine currentCharacter : JS.value)
    (res : list Decoder.HighlightItem) : list Decoder.HighlightItem :=
  match rels with
  | [] => res
  | r :: rels' =>
      let lnum := JS.add currentLine (Decoder.deltaLine r) in
      let startCharacter :=
        if JS.is_zero (Decoder.deltaLine r)
        then JS.add currentCharacter (Decoder.deltaStartCharacter r)
        else Decoder.deltaStartCharacter r in
      let endCharacter := JS.add startCharacter (Decoder.length r) in
      loop_items rels' lnum startCharacter
        (Decoder.addHighlights res
           (JS.concat Decoder.HLGROUP_PREFIX (Decoder.tokenType r))
           (range_of lnum startCharacter lnum endCharacter)
           (Decoder.options_of (Decoder.tokenType r)))
  end.

(** The exception of the first [Range.create] that throws, if one does. *)
Fixpoint first_error (rels : list Decoder.RelativeHighlight)
    (currentLine currentCharacter : JS.value) : option JS.exception :=
  match rels with
  | [] => None
  | r :: rels' =>
      let lnum := JS.add currentLine (Decoder.deltaLine r) in
      let startCharacter :=
        if JS.is_zero (Decoder.deltaLine r)
        then JS.add currentCharacter (Decoder.deltaStartCharacter r)
        else Decoder.deltaStartCharacter r in
      let endCharacter := JS.add startCharacter (Decoder.length r) in
      match Decoder.Range_create lnum startCharacter lnum endCharacter with
      | Throw e => Some e
      | Return _ => first_error rels' lnum startCharacter
      end
  end.

Definition items_of (legend : Decoder.SemanticTokensLegend)
    (tokens : list Z) : list Decoder.HighlightItem :=
  loop_items (Decoder.relatives legend tokens) (JS.Num 0) (JS.Num 0) [].

(** The item of line 163 for the token [q] read at the cursor. *)
Definition item_at (legend : Decoder.SemanticTokensLegend) (cur : Z * Z)
    (q : quintuple) : Decoder.HighlightItem :=
  let '(_, _, c, d, _) := q in
  let name := JS.index_by (Decoder.tokenTypes legend) (JS.Num d) in
  let p := advance cur q in
  {| Decoder.hlGroup := JS.concat Decoder.HLGROUP_PREFIX name;
     Decoder.range :=
       range_of (JS.Num (fst p)) (JS.Num (snd p))
         (JS.Num (fst p)) (JS.Num (snd p + c));
     Decoder.opts := Decoder.options_of name |}.

Fixpoint items_from (legend : Decoder.SemanticTokensLegend) (cur : Z * Z)
    (qs : list quintuple) : list Decoder.HighlightItem :=
  match qs with
  | [] => []
  | q :: qs' => item_at legend cur q :: items_from legend (advance cur q) qs'
  end.

(** The cursor after the first [i] tokens, and after token [i]. *)
Fixpoint cursor_at (cur : Z * Z) (qs : list quintuple) (i : nat) {struct i}
    : Z * Z :=
  match i with
  | O => cur
  | S k =>
      match qs with
      | [] => cur
      | q :: qs' => cursor_at (advance cur q) qs' k
      end
  end.

(** A coordinate that [Range.create] takes. *)
Definition valid (z : Z) : Prop := 0 <= z <= Decoder.uinteger_MAX_VALUE.

(** Every range of the tokens [qs] read from the cursor is one that
    [Range.create] takes. *)
Fixpoint ok_from (cur : Z * Z) (qs : list quintuple) : Prop :=
  match qs with
  | [] => True
  | q :: qs' =>
      valid (fst (advance cur q))
      /\ valid (snd (advance cur q))
      /\ valid (snd (advance cur q) + q.1.1.2)
      /\ ok_from (advance cur q) qs'
  end.

(** Cursors in document order. *)
Definition cursor_le (p q : Z * Z) : Prop :=
  fst p < fst q \/ (fst p = fst q /\ snd p <= snd q).

(** Two relative highlights that differ in their modifier names at most. *)
Definition same_but_modifiers (r1 r2 : Decoder.RelativeHighlight) : Prop :=
  Decoder.tokenType r1 = Decoder.tokenType r2
  /\ Decoder.deltaLine r1 = Decoder.deltaLine r2
  /\ Decoder.deltaStartCharacter r1 = Decoder.deltaStartCharacter r2
  /\ Decoder.length r1 = Decoder.length r2.

End Quintuples.

(** ** Inputs of the examples *)
Module Examples.

Definition legend_vf : Decoder.SemanticTokensLegend :=
  {| Decoder.tokenTypes := ["variable"; "function"]%string;
     Decoder.tokenModifiers := [] |}.

Definition item (group : string) (l1 c1 l2 c2 : Z)
    (o : Decoder.HighlightItemOption) : Decoder.HighlightItem :=
  {| Decoder.hlGroup := group;
     Decoder.range :=
       Quintuples.range_of (JS.Num l1) (JS.Num c1) (JS.Num l2) (JS.Num c2);
     Decoder.opts := o |}.

Definition plain : Decoder.HighlightItemOption :=
  {| Decoder.combine := Some false;
     Decoder.start_incl := None; Decoder.end_incl := None |}.

Definition inclusive : Decoder.HighlightItemOption :=
  {| Decoder.combine := Some false;
     Decoder.start_incl := Some true; Decoder.end_incl := Some true |}.

(** An attached document with a legend and a provider that answers
    edit requests. *)
Definition doc_on : Orchestrator.Document :=
  {| Orchestrator.attached := true;
     Orchestrator.textDocument_version := 1;
     Orchestrator.getLegend := Some legend_vf;
     Orchestrator.hasProvider := true;
     Orchestrator.hasSemanticTokensEdits := true |}.

Definition env_on : Orchestrator.Env :=
  {| Orchestrator.config_enabled := true;
     Orchestrator.getDocument := Some doc_on |}.

(** A first cycle that ends with the result "r1" in the cache and
    nothing to render. *)
Definition first_cycle : list (Orchestrator.Env * Orchestrator.Event unit) :=
  [ (env_on, Orchestrator.timerFires);
    (env_on, Orchestrator.providerResponds 0
               (Some (Orchestrator.SemanticTokens (Some "r1"%string)
                        [0;0;3;0;0])));
    (env_on, Orchestrator.diffResponds 0 None) ].

Definition cached : Orchestrator.World unit :=
  Orchestrator.run Orchestrator.constructor first_cycle.

(** After the first cycle: a second request in flight and the debounce
    timer armed again. *)
Definition busy : Orchestrator.World unit :=
  Orchestrator.run cached
    [ (env_on, Orchestrator.onChange);
      (env_on, Orchestrator.timerFires);
      (env_on, Orchestrator.setState true) ].

(** A request in flight right after construction. *)
Definition requesting : Orchestrator.World unit :=
  Orchestrator.run Orchestrator.constructor
    [ (env_on, Orchestrator.timerFires) ].

(** The first response is at the diff collaborator when a forced refresh
    starts the second request. *)
Definition overlapping : Orchestrator.World unit :=
  Orchestrator.run requesting
    [ (env_on, Orchestrator.providerResponds 0
                 (Some (Orchestrator.SemanticTokens (Some "r1"%string)
                          [0;0;3;0;0])));
      (env_on, Orchestrator.forceHighlight) ].

(** The first activation has come back from the diff collaborator and
    cleared [tokenSource]: the second request is in flight and held by
    nothing. *)
Definition orphaned : Orchestrator.World unit :=
  Orchestrator.run overlapping
    [ (env_on, Orchestrator.diffResponds 0 (Some tt)) ].

(** A third request starts while the second, which nothing could cancel,
    is still in flight: both hold the array of the first result. *)
Definition two_in_flight : Orchestrator.World unit :=
  Orchestrator.run orphaned [ (env_on, Orchestrator.forceHighlight) ].

(** Three tokens on two lines. *)
Definition two_lines : list Z := [0;2;3;0;0; 1;4;2;1;0; 0;3;1;0;0].

End Examples.

(** ** What holds of every state the buffer can be in *)
Module Invariant.

(** A previous result, if any, carries its token array, and the array
    is in the store. *)
Definition with_tokens {Diff} (w : Orchestrator.World Diff)
    (r : option Orchestrator.SemanticTokensPreviousResult) : Prop :=
  forall r', r = Some r' ->
    exists array, Orchestrator.tokens r' = Some array
      /\ is_Some (Orchestrator.arrays w !! array).

Definition inv {Diff} (w : Orchestrator.World Diff) : Prop :=
  (forall t, Orchestrator.tokenSource (Orchestrator.this w) = Some t ->
     (t < Orchestrator.sources w)%nat /\ t ∉ Orchestrator.cancelled w)
  /\ (forall t, t ∈ Orchestrator.cancelled w ->
        (t < Orchestrator.sources w)%nat)
  /\ with_tokens w (Orchestrator.previousResults (Orchestrator.this w))
  /\ (forall t forced legend previousResult v,
        Orchestrator.suspended w !! t
        = Some (Orchestrator.AwaitProvider forced legend previousResult v) ->
        is_Some legend /\ with_tokens w previousResult
        /\ Orchestrator.arrays w !! t = None
        /\ (t < Orchestrator.sources w)%nat)
  /\ (forall array, is_Some (Orchestrator.arrays w !! array) ->
        (array < Orchestrator.sources w)%nat).

End Invariant.

(** * Properties *)

(** ** Decoder *)

Section DecoderFacts.

Import Decoder Quintuples.

(** C1: under the legend with types variable and function and no modifier,
    the array 0,0,3,0,0, 0,4,2,1,0 decodes to exactly two items, in this
    order: range (0,0,0,3), group CocSem_variable, both inclusivity flags
    set; then range (0,4,0,6), group CocSem_function, no inclusivity
    flag; combine is false on both. *)
Theorem decode_variable_function :
  decode Examples.legend_vf [0;0;3;0;0; 0;4;2;1;0] =
    Return
      [ Examples.item "CocSem_variable" 0 0 0 3
          {| combine := Some false;
             start_incl := Some true; end_incl := Some true |};
        Examples.item "CocSem_function" 0 4 0 6
          {| combine := Some false; start_incl := None; end_incl := None |} ].
Proof. reflexivity. Qed.

(** The second loop is the loop that builds the items, stopped by the
    first range that [Range.create] refuses. *)
Lemma highlight_loop_first_error (rels : list RelativeHighlight) :
  forall l c res,
    highlight_loop rels l c res
    = match first_error rels l c with
      | Some e => Throw e
      | None => Return (loop_items rels l c res)
      end.
Proof.
  induction rels as [|r rels IH]; intros l c res; [done|].
  cbn [highlight_loop first_error loop_items].
  unfold Range_create.
  destruct (is_uinteger _ && is_uinteger _ && is_uinteger _ && is_uinteger _);
    [apply IH|done].
Qed.

Lemma decode_Return legend (tokens : list Z) items :
  decode legend tokens = Return items <->
  first_error (relatives legend tokens) (JS.Num 0) (JS.Num 0) = None
  /\ items = items_of legend tokens.
Proof.
  unfold decode, items_of. rewrite highlight_loop_first_error.
  destruct (first_error _ _ _) as [e|].
  - split; [done|by intros [? _]].
  - split; [by intros [= <-]|by intros [_ ->]].
Qed.

Lemma is_uinteger_Num (z : Z) : is_uinteger (JS.Num z) = true <-> valid z.
Proof.
  unfold is_uinteger, valid. rewrite andb_true_iff, !Z.leb_le. done.
Qed.

Lemma Range_create_Num (l c d : Z) :
  (valid l /\ valid c /\ valid d ->
   Range_create (JS.Num l) (JS.Num c) (JS.Num l) (JS.Num d)
   = Return (range_of (JS.Num l) (JS.Num c) (JS.Num l) (JS.Num d)))
  /\ (~ (valid l /\ valid c /\ valid d) ->
      exists e,
        Range_create (JS.Num l) (JS.Num c) (JS.Num l) (JS.Num d) = Throw e).
Proof.
  unfold Range_create.
  destruct (is_uinteger (JS.Num l)) eqn:Hl, (is_uinteger (JS.Num c)) eqn:Hc,
    (is_uinteger (JS.Num d)) eqn:Hd; cbn [andb];
    rewrite <- ?is_uinteger_Num, ?Hl, ?Hc, ?Hd; split;
    try done; try (by eexists); try (by intros (? & ? & ?)); tauto.
Qed.

Lemma is_zero_Num (z : Z) : JS.is_zero (JS.Num z) = (z =? 0).
Proof. by destruct z. Qed.

Lemma flat_length (qs : list quintuple) :
  List.length (flat qs) = (5 * List.length qs)%nat.
Proof.
  induction qs as [|[[[[a b] c] d] e] qs IH]; simpl; [done|].
  rewrite IH. lia.
Qed.

(** An array whose length is a multiple of five is a list of quintuples. *)
Lemma flat_exists (n : nat) : forall tokens : list Z,
  List.length tokens = (5 * n)%nat ->
  exists qs, tokens = flat qs /\ List.length qs = n.
Proof.
  induction n as [|n IH]; intros tokens Hlen.
  - destruct tokens; [|done]. by exists [].
  - destruct tokens as [|a [|b [|c [|d [|e rest]]]]]; simpl in Hlen; try lia.
    destruct (IH rest) as [qs [-> <-]]; [lia|].
    by exists ((a, b, c, d, e) :: qs).
Qed.

Lemma flat_Forall (P : Z -> Prop) (qs : list quintuple) :
  Forall P (flat qs) ->
  Forall (fun q => let '(a, b, _, _, _) := q in P a /\ P b) qs.
Proof.
  induction qs as [|[[[[a b] c] d] e] qs IH]; simpl; intros H; [done|].
  inversion H as [|? ? Ha H1]; subst. inversion H1 as [|? ? Hb H2]; subst.
  inversion H2 as [|? ? _ H3]; subst. inversion H3 as [|? ? _ H4]; subst.
  inversion H4 as [|? ? _ H5]; subst. constructor; auto.
Qed.

Lemma flat_nth (qs : list quintuple) : forall (i k : nat) a b c d e,
  qs !! i = Some (a, b, c, d, e) ->
  (k < 5)%nat ->
  nth (5 * i + k)%nat (flat qs) 0 = nth k [a; b; c; d; e] 0.
Proof.
  induction qs as [|[[[[a' b'] c'] d'] e'] qs IH]; intros i k a b c d e Hq Hk;
    [done|].
  destruct i as [|i].
  - simpl in Hq. injection Hq as -> -> -> -> ->.
    do 5 (destruct k as [|k]; [done|]). lia.
  - simpl in Hq.
    replace (5 * S i + k)%nat with (S (S (S (S (S (5 * i + k))))))%nat by lia.
    simpl. by apply IH.
Qed.

(** The two loops on a list of quintuples. *)
Lemma loop_items_flat legend (qs : list quintuple) : forall l c res,
  loop_items (relatives legend (flat qs)) (JS.Num l) (JS.Num c) res
  = res ++ items_from legend (l, c) qs.
Proof.
  induction qs as [|[[[[a b] c'] d] e] qs IH]; intros l c res; simpl.
  - by rewrite app_nil_r.
  - destruct a as [|p|p]; cbn; rewrite IH;
      unfold addHighlights; by rewrite <- app_assoc.
Qed.

Lemma items_of_flat legend (qs : list quintuple) :
  items_of legend (flat qs) = items_from legend (0, 0) qs.
Proof. unfold items_of. by rewrite loop_items_flat. Qed.

Lemma first_error_flat legend (qs : list quintuple) : forall l c,
  first_error (relatives legend (flat qs)) (JS.Num l) (JS.Num c) = None
  <-> ok_from (l, c) qs.
Proof.
  induction qs as [|[[[[a b] c'] d] e] qs IH]; intros l c; [done|].
  cbn [flat relatives ok_from].
  set (p := advance (l, c) (a, b, c', d, e)).
  assert (first_error (relative_at legend (a :: b :: c' :: d :: e :: flat qs)
                         :: relatives legend (flat qs)) (JS.Num l) (JS.Num c)
          = match Range_create (JS.Num (fst p)) (JS.Num (snd p))
                    (JS.Num (fst p)) (JS.Num (snd p + c')) with
            | Throw e => Some e
            | Return _ =>
                first_error (relatives legend (flat qs))
                  (JS.Num (fst p)) (JS.Num (snd p))
            end) as ->.
  { subst p. by destruct a as [|x|x]. }
  destruct (Range_create_Num (fst p) (snd p) (snd p + c')) as [Hok Hno].
  destruct (decide (valid (fst p) /\ valid (snd p) /\ valid (snd p + c')))
    as [Hv|Hv].
  - rewrite (Hok Hv), IH. cbn. tauto.
  - destruct (Hno Hv) as [e' ->]. cbn. split; [done|tauto].
Qed.

Lemma ok_from_lookup (qs : list quintuple) : forall cur,
  ok_from cur qs
  <-> forall i a b c d e,
        qs !! i = Some (a, b, c, d, e) ->
        valid (fst (cursor_at cur qs (S i)))
        /\ valid (snd (cursor_at cur qs (S i)))
        /\ valid (snd (cursor_at cur qs (S i)) + c).
Proof.
  induction qs as [|q qs IH]; intros cur; cbn [ok_from].
  - split; [by intros _ i ? ? ? ? ? ?|done].
  - rewrite IH. split.
    + intros (H1 & H2 & H3 & H) [|i] a b c d e Hq.
      * cbn in Hq. injection Hq as ->. by cbn.
      * cbn in Hq. cbn [cursor_at]. by apply (H i a b c d e).
    + intros H. destruct q as [[[[a b] c] d] e].
      pose proof (H 0%nat a b c d e eq_refl) as H0. cbn in H0.
      split; [apply H0|]. split; [apply H0|]. split; [apply H0|].
      intros i a' b' c' d' e' Hq. by apply (H (S i) a' b' c' d' e').
Qed.

Lemma items_from_length legend (qs : list quintuple) : forall cur,
  List.length (items_from legend cur qs) = List.length qs.
Proof.
  induction qs as [|q qs IH]; intros cur; simpl; [done|]. by rewrite IH.
Qed.

Lemma items_from_lookup legend (qs : list quintuple) : forall cur i q,
  qs !! i = Some q ->
  items_from legend cur qs !! i = Some (item_at legend (cursor_at cur qs i) q).
Proof.
  induction qs as [|q' qs IH]; intros cur i q Hq; [done|].
  destruct i as [|i]; simpl in *.
  - by injection Hq as ->.
  - by apply IH.
Qed.

Lemma cursor_at_S (qs : list quintuple) : forall cur i q,
  qs !! i = Some q ->
  cursor_at cur qs (S i) = advance (cursor_at cur qs i) q.
Proof.
  induction qs as [|q' qs IH]; intros cur i q Hq; [done|].
  destruct i as [|i]; simplify_eq/=; [done|]. by apply IH.
Qed.

Lemma item_at_start legend cur (q : quintuple) :
  start (range (item_at legend cur q))
  = {| line := JS.Num (fst (advance cur q));
       character := JS.Num (snd (advance cur q)) |}.
Proof. by destruct q as [[[[a b] c] d] e]. Qed.

Lemma spec_fields_flat (qs : list quintuple) (i : nat) a b c d e :
  qs !! i = Some (a, b, c, d, e) ->
  Spec.deltaLine_of (flat qs) i = a
  /\ Spec.deltaStartChar_of (flat qs) i = b
  /\ Spec.typeIndex_of (flat qs) i = d.
Proof.
  intros Hq. unfold Spec.deltaLine_of, Spec.deltaStartChar_of,
    Spec.typeIndex_of.
  rewrite <- (Nat.add_0_r (5 * i)) at 1.
  by rewrite !(flat_nth qs i _ a b c d e Hq) by lia.
Qed.

Lemma flat_lookup_nonneg (qs : list quintuple) (i : nat) a b c d e :
  Forall (fun t => 0 <= t) (flat qs) ->
  qs !! i = Some (a, b, c, d, e) ->
  0 <= a /\ 0 <= b.
Proof.
  intros Hpos Hq. apply flat_Forall in Hpos.
  rewrite Forall_lookup in Hpos. apply (Hpos _ _ Hq).
Qed.

(** The cursor of the code is the running sum of the specification. *)
Lemma cursor_at_spec (qs : list quintuple) (i : nat) :
  Forall (fun t => 0 <= t) (flat qs) ->
  (i < List.length qs)%nat ->
  cursor_at (0, 0) qs (S i)
  = (Spec.line_of (flat qs) i, Spec.startChar_of (flat qs) i).
Proof.
  intros Hpos. induction i as [|i IH]; intros Hi;
    destruct (lookup_lt_is_Some_2 qs _ Hi) as [[[[[a b] c] d] e] Hq];
    destruct (spec_fields_flat _ _ _ _ _ _ _ Hq) as [Hl [Hc _]];
    destruct (flat_lookup_nonneg _ _ _ _ _ _ _ Hpos Hq) as [Ha _];
    rewrite (cursor_at_S _ _ _ _ Hq);
    cbn [Spec.line_of Spec.startChar_of]; rewrite Hl, Hc.
  - cbn. destruct (Z.eqb_spec a 0), (Z.ltb_spec 0 a); f_equal; lia.
  - rewrite IH by lia. cbn.
    destruct (Z.eqb_spec a 0), (Z.ltb_spec 0 a); f_equal; lia.
Qed.

Lemma cursor_at_mono (qs : list quintuple) (i k : nat) :
  Forall (fun t => 0 <= t) (flat qs) ->
  (i + k < List.length qs)%nat ->
  cursor_le (cursor_at (0, 0) qs (S i)) (cursor_at (0, 0) qs (S (i + k))).
Proof.
  intros Hpos. induction k as [|k IH]; intros Hk.
  - rewrite Nat.add_0_r. right. split; [done|lia].
  - replace (i + S k)%nat with (S (i + k)) in * by lia.
    destruct (lookup_lt_is_Some_2 qs (S (i + k)) Hk) as [[[[[a b] c] d] e] Hq].
    rewrite (cursor_at_S _ _ _ _ Hq).
    destruct (flat_lookup_nonneg _ _ _ _ _ _ _ Hpos Hq) as [Ha Hb].
    specialize (IH ltac:(lia)). revert IH. unfold cursor_le, advance.
    destruct (cursor_at (0, 0) qs (S i)) as [l1 c1].
    destruct (cursor_at (0, 0) qs (S (i + k))) as [l2 c2]. cbn.
    destruct (Z.eqb_spec a 0); lia.
Qed.

Lemma flat_Forall_length (P : Z -> Prop) (qs : list quintuple) :
  Forall P (flat qs) -> Forall (fun q => P q.1.1.2) qs.
Proof.
  induction qs as [|[[[[a b] c] d] e] qs IH]; simpl; intros H; [done|].
  inversion H as [|? ? _ H1]; subst. inversion H1 as [|? ? _ H2]; subst.
  inversion H2 as [|? ? Hc H3]; subst. inversion H3 as [|? ? _ H4]; subst.
  inversion H4 as [|? ? _ H5]; subst. constructor; auto.
Qed.

Lemma spec_length_flat (qs : list quintuple) (i : nat) a b c d e :
  qs !! i = Some (a, b, c, d, e) ->
  Spec.length_of (flat qs) i = c.
Proof.
  intros Hq. unfold Spec.length_of.
  by rewrite (flat_nth qs i 2 a b c d e Hq) by lia.
Qed.

Lemma spec_nonneg (qs : list quintuple) (i : nat) :
  Forall (fun t => 0 <= t) (flat qs) ->
  (i < List.length qs)%nat ->
  0 <= Spec.line_of (flat qs) i /\ 0 <= Spec.startChar_of (flat qs) i.
Proof.
  intros Hpos. induction i as [|i IH]; intros Hi;
    destruct (lookup_lt_is_Some_2 qs _ Hi) as [[[[[a b] c] d] e] Hq];
    destruct (spec_fields_flat _ _ _ _ _ _ _ Hq) as [Hl [Hc _]];
    destruct (flat_lookup_nonneg _ _ _ _ _ _ _ Hpos Hq) as [Ha Hb];
    cbn [Spec.line_of Spec.startChar_of]; rewrite Hl, Hc.
  - destruct (0 <? a); lia.
  - destruct (IH ltac:(lia)). destruct (0 <? a); lia.
Qed.

(** With unsigned numbers, the ranges are taken exactly when lines and
    end characters stay within the bound. *)
Lemma ok_from_within_bounds (qs : list quintuple) :
  Forall (fun t => 0 <= t) (flat qs) ->
  ok_from (0, 0) qs <-> Spec.within_bounds (flat qs) (List.length qs).
Proof.
  intros Hpos. rewrite ok_from_lookup. unfold Spec.within_bounds. split.
  - intros H i Hi.
    destruct (lookup_lt_is_Some_2 qs _ Hi) as [[[[[a b] c] d] e] Hq].
    destruct (H i a b c d e Hq) as (H1 & _ & H3).
    rewrite cursor_at_spec in H1, H3 by done. cbn in H1, H3.
    rewrite (spec_length_flat _ _ _ _ _ _ _ Hq). unfold valid in *. lia.
  - intros H i a b c d e Hq.
    assert (i < List.length qs)%nat as Hi by (by eapply lookup_lt_Some).
    destruct (H i Hi) as [H1 H3].
    rewrite (spec_length_flat _ _ _ _ _ _ _ Hq) in H3.
    rewrite cursor_at_spec by done. cbn.
    destruct (spec_nonneg qs i Hpos Hi) as [H4 H5].
    assert (0 <= c) as Hc.
    { apply flat_Forall_length in Hpos. rewrite Forall_lookup in Hpos.
      apply (Hpos _ _ Hq). }
    unfold valid. lia.
Qed.

(** When decoding an array of unsigned quintuples returns. *)
Lemma decode_returns_within_bounds legend (tokens : list Z) (n : nat) :
  List.length tokens = (5 * n)%nat ->
  Forall (fun t => 0 <= t) tokens ->
  Spec.within_bounds tokens n
  <-> decode legend tokens = Return (items_of legend tokens).
Proof.
  intros Hlen Hpos. destruct (flat_exists n tokens Hlen) as [qs [-> <-]].
  rewrite <- (ok_from_within_bounds qs Hpos), <- (first_error_flat legend).
  rewrite decode_Return. tauto.
Qed.

Lemma items_of_lookup_flat legend (qs : list quintuple) (i : nat) it :
  items_of legend (flat qs) !! i = Some it ->
  exists q, qs !! i = Some q
    /\ it = item_at legend (cursor_at (0, 0) qs i) q
    /\ start (range it)
       = {| line := JS.Num (fst (cursor_at (0, 0) qs (S i)));
            character := JS.Num (snd (cursor_at (0, 0) qs (S i))) |}.
Proof.
  rewrite items_of_flat. intros Hit.
  assert (i < List.length qs)%nat as Hi.
  { apply lookup_lt_Some in Hit. by rewrite items_from_length in Hit. }
  destruct (lookup_lt_is_Some_2 qs i Hi) as [q Hq].
  rewrite (items_from_lookup _ _ _ _ _ Hq) in Hit. injection Hit as <-.
  exists q. split; [done|]. split; [done|].
  by rewrite item_at_start, (cursor_at_S _ _ _ _ Hq).
Qed.

(** C2: for an array of unsigned integers whose length is a multiple of
    five, decoding returns exactly when no line and no end character goes
    beyond the bound of [Range.create]; the items it returns are one for
    each quintuple; the start of the i-th item is the running sum of the
    deltas (its line is the sum of the line deltas so far, its start
    character restarts at the character delta when the line delta is
    positive and otherwise adds it to the start character of the token
    before); and the starts are non-decreasing in the pair of line and
    start character. *)
Theorem decode_cumulative legend (tokens : list Z) (n : nat) :
  List.length tokens = (5 * n)%nat ->
  Forall (fun t => 0 <= t) tokens ->
  (Spec.within_bounds tokens n
   <-> exists items, decode legend tokens = Return items)
  /\ (forall items, decode legend tokens = Return items ->
        List.length items = n
        /\ (forall i it, items !! i = Some it ->
              start (range it)
              = {| line := JS.Num (Spec.line_of tokens i);
                   character := JS.Num (Spec.startChar_of tokens i) |})
        /\ (forall i j a b, (i <= j)%nat ->
              items !! i = Some a ->
              items !! j = Some b ->
              Spec.position_le (start (range a)) (start (range b)))).
Proof.
  intros Hlen Hpos. split.
  { rewrite (decode_returns_within_bounds legend tokens n Hlen Hpos). split.
    - intros H. by exists (items_of legend tokens).
    - intros [items H]. apply decode_Return in H as H'.
      destruct H' as [_ ->]. done. }
  destruct (flat_exists n tokens Hlen) as [qs [-> <-]].
  intros items [_ ->]%decode_Return.
  split; [by rewrite items_of_flat, items_from_length|]. split.
  - intros i it Hit.
    assert (i < List.length qs)%nat as Hi.
    { apply lookup_lt_Some in Hit.
      by rewrite items_of_flat, items_from_length in Hit. }
    destruct (items_of_lookup_flat _ _ _ _ Hit) as [q [_ [_ ->]]].
    by rewrite cursor_at_spec.
  - intros i j a b Hij Ha Hb.
    assert (j < List.length qs)%nat as Hj.
    { apply lookup_lt_Some in Hb.
      by rewrite items_of_flat, items_from_length in Hb. }
    destruct (items_of_lookup_flat _ _ _ _ Ha) as [qa [_ [_ Hsa]]].
    destruct (items_of_lookup_flat _ _ _ _ Hb) as [qb [_ [_ Hsb]]].
    unfold Spec.position_le. rewrite Hsa, Hsb. cbn.
    replace j with (i + (j - i))%nat by lia.
    apply cursor_at_mono; [done|lia].
Qed.

(** A token array of two lines: the start character restarts on the
    second line and accumulates along it. *)
Lemma decode_cumulative_witness :
  (Spec.within_bounds Examples.two_lines 3
   <-> exists items,
         decode Examples.legend_vf Examples.two_lines = Return items)
  /\ (forall items,
        decode Examples.legend_vf Examples.two_lines = Return items ->
        List.length items = 3%nat
        /\ (forall i it, items !! i = Some it ->
              start (range it)
              = {| line := JS.Num (Spec.line_of Examples.two_lines i);
                   character :=
                     JS.Num (Spec.startChar_of Examples.two_lines i) |})
        /\ (forall i j a b, (i <= j)%nat ->
              items !! i = Some a ->
              items !! j = Some b ->
              Spec.position_le (start (range a)) (start (range b)))).
Proof.
  apply (decode_cumulative Examples.legend_vf
           Examples.two_lines 3).
  - reflexivity.
  - repeat constructor; lia.
Defined.

(** The second loop reads the type name and the three numbers only. *)
Lemma highlight_loop_same (rs1 rs2 : list RelativeHighlight) :
  Forall2 same_but_modifiers rs1 rs2 ->
  forall l c res, highlight_loop rs1 l c res = highlight_loop rs2 l c res.
Proof.
  induction 1 as [|r1 r2 rs1 rs2 (Ht & Hl & Hc & Hn) _ IH]; intros l c res;
    [done|].
  cbn [highlight_loop]. rewrite Ht, Hl, Hc, Hn.
  destruct (Range_create _ _ _ _); [apply IH|done].
Qed.

Lemma relative_at_same legend (a b c d e1 e2 : Z) (r1 r2 : list Z) :
  same_but_modifiers (relative_at legend (a :: b :: c :: d :: e1 :: r1))
                     (relative_at legend (a :: b :: c :: d :: e2 :: r2)).
Proof. by repeat split. Qed.

Lemma relatives_same legend (n : nat) : forall t1 t2 : list Z,
  List.length t1 = n ->
  List.length t2 = n ->
  (forall i, (i mod 5 <> 4)%nat -> t1 !! i = t2 !! i) ->
  Forall2 same_but_modifiers (relatives legend t1) (relatives legend t2).
Proof.
  induction n as [n IH] using lt_wf_ind. intros t1 t2 H1 H2 Heq.
  destruct t1 as [|a1 [|b1 [|c1 [|d1 [|e1 r1]]]]];
    destruct t2 as [|a2 [|b2 [|c2 [|d2 [|e2 r2]]]]];
    simpl in H1, H2; try lia; try by constructor.
  all: pose proof (Heq 0%nat ltac:(by compute)) as E0;
    try pose proof (Heq 1%nat ltac:(by compute)) as E1;
    try pose proof (Heq 2%nat ltac:(by compute)) as E2;
    try pose proof (Heq 3%nat ltac:(by compute)) as E3;
    simplify_eq/=.
  1-4: by repeat constructor.
  constructor; [apply relative_at_same|].
  apply (IH (List.length r1)); [lia|done|lia|].
  intros i Hi.
  assert ((5 + i) mod 5 = i mod 5)%nat as Hm.
  { replace (5 + i)%nat with (i + 1 * 5)%nat by lia. apply Nat.Div0.mod_add. }
  apply (Heq (5 + i)%nat). intros Hc. apply Hi.
  exact (eq_trans (eq_sym Hm) Hc).
Qed.

(** C9: two token arrays of equal length that agree outside the fifth
    number of each quintuple decode to the same items: the modifier names
    are computed and never read. *)
Theorem decode_ignores_modifiers legend (t1 t2 : list Z) :
  List.length t1 = List.length t2 ->
  (forall i, (i mod 5 <> 4)%nat -> t1 !! i = t2 !! i) ->
  decode legend t1 = decode legend t2.
Proof.
  intros Hlen Heq. unfold decode. apply highlight_loop_same.
  by apply (relatives_same legend (List.length t1)).
Qed.

(** The arrays of the example differ in both modifier bit sets, and the
    legend names modifiers. *)
Lemma decode_ignores_modifiers_witness :
  decode {| tokenTypes := ["variable"; "function"]%string;
            tokenModifiers := ["declaration"; "static"]%string |}
    [0;0;3;0;0; 0;4;2;1;0]
  = decode {| tokenTypes := ["variable"; "function"]%string;
              tokenModifiers := ["declaration"; "static"]%string |}
      [0;0;3;0;3; 0;4;2;1;1].
Proof.
  apply (decode_ignores_modifiers _ [0;0;3;0;0; 0;4;2;1;0]
           [0;0;3;0;3; 0;4;2;1;1]).
  - reflexivity.
  - intros i Hi.
    do 10 (destruct i as [|i]; [first [reflexivity | by compute in Hi]|]).
    reflexivity.
Defined.

(** A type index outside the legend names no type. *)
Lemma index_by_out_of_range (names : list string) (d : Z) :
  d < 0 \/ Z.of_nat (List.length names) <= d ->
  JS.index_by names (JS.Num d) = None.
Proof.
  intros Hd. unfold JS.index_by. destruct (Z.leb_spec 0 d); [|done].
  apply lookup_ge_None. lia.
Qed.

Lemma items_of_out_of_range legend (tokens : list Z) (n i : nat) :
  List.length tokens = (5 * n)%nat ->
  (i < n)%nat ->
  Spec.typeIndex_of tokens i < 0
    \/ Z.of_nat (List.length (tokenTypes legend))
       <= Spec.typeIndex_of tokens i ->
  exists it, items_of legend tokens !! i = Some it
    /\ hlGroup it = "CocSem_undefined"%string
    /\ opts it = Examples.plain.
Proof.
  intros Hlen Hi Hd. destruct (flat_exists n tokens Hlen) as [qs [-> <-]].
  destruct (lookup_lt_is_Some_2 qs i Hi) as [[[[[a b] c] d] e] Hq].
  destruct (spec_fields_flat _ _ _ _ _ _ _ Hq) as (_ & _ & Hty).
  rewrite Hty in Hd.
  exists (item_at legend (cursor_at (0, 0) qs i) (a, b, c, d, e)).
  rewrite items_of_flat. split; [by apply items_from_lookup|].
  unfold item_at. by rewrite (index_by_out_of_range _ _ Hd).
Qed.

End DecoderFacts.

(** ** Delta applier *)

Section DeltaApplierFacts.

Import DeltaApplier.

(** [splice] at unsigned arguments: the clamping of the two arguments is
    the one [take] and [drop] do. *)
Lemma splice_unsigned {A} (a : list A) (s k : nat) (items : list A) :
  JS.splice a (Z.of_nat s) (Z.of_nat k) items
  = take s a ++ items ++ drop (s + k) a.
Proof.
  unfold JS.splice. destruct (Z.ltb_spec (Z.of_nat s) 0); [lia|].
  f_equal; [|f_equal].
  - destruct (decide (s <= List.length a)%nat).
    + f_equal. lia.
    + rewrite !take_ge; [done|lia|lia].
  - destruct (decide (s + k <= List.length a)%nat).
    + f_equal. lia.
    + rewrite !drop_ge; [done|lia|lia].
Qed.

Lemma apply_edit_unsigned (tokens : list Z) (s k : nat) (d : list Z) :
  apply_edit tokens
    {| start := Z.of_nat s; deleteCount := Z.of_nat k; data := d |}
  = take s tokens ++ d ++ drop (s + k) tokens.
Proof.
  unfold apply_edit. cbn [start deleteCount data].
  destruct (Z.ltb_spec 0 (Z.of_nat k)); [apply splice_unsigned|].
  replace k with 0%nat by lia. apply (splice_unsigned tokens s 0).
Qed.

(** C3: the edits are applied one after another, each to the array the
    one before left: an edit with unsigned fields takes [deleteCount]
    numbers out at [start] and puts [data] there; the two edits of the
    example turn 0,0,1,0,0 into 1,2,3,0,0; and an edit that deletes
    nothing inserts its data at [start]. *)
Theorem apply_edits_in_order :
  (forall tokens e edits,
      apply_edits tokens (e :: edits) = apply_edits (apply_edit tokens e) edits)
  /\ (forall tokens edits1 edits2,
      apply_edits tokens (edits1 ++ edits2)
      = apply_edits (apply_edits tokens edits1) edits2)
  /\ (forall tokens (s k : nat) d,
      apply_edit tokens
        {| start := Z.of_nat s; deleteCount := Z.of_nat k; data := d |}
      = take s tokens ++ d ++ drop (s + k) tokens)
  /\ apply_edits [0;0;1;0;0]
       [ {| start := 5; deleteCount := 0; data := [1;2;3;0;0] |};
         {| start := 0; deleteCount := 5; data := [] |} ]
     = [1;2;3;0;0]
  /\ (forall tokens (s : nat) d,
      apply_edit tokens {| start := Z.of_nat s; deleteCount := 0; data := d |}
      = take s tokens ++ d ++ drop s tokens).
Proof.
  split; [done|]. split; [intros; apply fold_left_app|].
  split; [apply apply_edit_unsigned|]. split; [reflexivity|].
  intros tokens s d. rewrite <- (Nat.add_0_r s) at 3.
  apply (apply_edit_unsigned tokens s 0 d).
Qed.

End DeltaApplierFacts.

(** ** Life cycle *)

Section OrchestratorFacts.

Import Orchestrator.

(** *** What the helpers leave alone *)

Lemma enabled_document env :
  enabled env = true ->
  exists doc, getDocument env = Some doc.
Proof.
  unfold enabled. destruct (config_enabled env); [|done].
  destruct (getDocument env) as [doc|]; [|done]. by exists doc.
Qed.

Lemma cancel_fields {Diff} (w : World Diff) :
  timer (cancel w) = timer w
  /\ sources (cancel w) = sources w
  /\ suspended (cancel w) = suspended w
  /\ calls (cancel w) = calls w
  /\ _highlights (this (cancel w)) = _highlights (this w)
  /\ previousResults (this (cancel w)) = previousResults (this w)
  /\ tokenSource (this (cancel w)) = None.
Proof. unfold cancel. by destruct (tokenSource (this w)) eqn:E. Qed.

Lemma cancel_arrays {Diff} (w : World Diff) : arrays (cancel w) = arrays w.
Proof. unfold cancel. by destruct (tokenSource (this w)). Qed.

Lemma cancel_cancelled {Diff} (w : World Diff) :
  cancelled (cancel w)
  = from_option singleton ∅ (tokenSource (this w)) ∪ cancelled w.
Proof.
  unfold cancel. destruct (tokenSource (this w)); cbn; [done|].
  by rewrite (left_id_L ∅ (∪)).
Qed.

Lemma requestHighlights_begin_calls {Diff} env token forceFull forced
    (w : World Diff) doc :
  getDocument env = Some doc ->
  calls (requestHighlights_begin env token forceFull forced w)
  = calls w ++
    [request (choose_request (hasSemanticTokensEdits doc)
                (if forceFull then None else previousResults (this w)) token)].
Proof. intros Hdoc. unfold requestHighlights_begin. by rewrite Hdoc. Qed.

Lemma requestHighlights_begin_this {Diff} env token forceFull forced
    (w : World Diff) :
  this (requestHighlights_begin env token forceFull forced w) = this w
  /\ timer (requestHighlights_begin env token forceFull forced w) = timer w.
Proof.
  unfold requestHighlights_begin, fail.
  by destruct (getDocument env), forced.
Qed.

Lemma doHighlight_calls {Diff} env forced (w : World Diff) :
  calls (doHighlight env forced w)
  = calls w ++
    match (if enabled env then getDocument env else None) with
    | Some doc =>
        [request (choose_request (hasSemanticTokensEdits doc)
                    (previousResults (this w)) (sources w))]
    | None => []
    end.
Proof.
  unfold doHighlight. destruct (enabled env) eqn:Hen; cbn [negb].
  - destruct (enabled_document _ Hen) as [doc Hdoc]. rewrite Hdoc.
    cbn [new_source].
    rewrite (requestHighlights_begin_calls _ _ _ _ _ doc Hdoc).
    cbn -[cancel choose_request].
    destruct (cancel_fields w) as (_ & -> & _ & -> & _ & -> & _). done.
  - by rewrite app_nil_r.
Qed.

Lemma doHighlight_highlights {Diff} env forced (w : World Diff) :
  timer (doHighlight env forced w) = timer w
  /\ _highlights (this (doHighlight env forced w)) = _highlights (this w)
  /\ previousResults (this (doHighlight env forced w))
     = previousResults (this w).
Proof.
  unfold doHighlight. destruct (enabled env); cbn [negb]; [|done].
  cbn [new_source].
  destruct (requestHighlights_begin_this env (sources (cancel w)) false forced
    (set_this (set_tokenSource (Some (sources (cancel w))))
      {| this := this (cancel w); timer := timer (cancel w);
         cancelled := cancelled (cancel w); sources := S (sources (cancel w));
         suspended := suspended (cancel w); calls := calls (cancel w);
         arrays := arrays (cancel w) |}))
    as [-> ->].
  destruct (cancel_fields w) as (Ht & _ & _ & _ & Hh & Hp & _). done.
Qed.

(** *** Which request goes out *)

Lemma choose_request_cases hasEditProvider previousResult token :
  choose_request hasEditProvider previousResult token
  = match previousResult ≫= resultId with
    | Some rid =>
        if hasEditProvider && negb (String.eqb rid EmptyString)
        then provideDocumentSemanticTokensEdits rid token
        else provideDocumentSemanticTokens token
    | None => provideDocumentSemanticTokens token
    end.
Proof.
  unfold choose_request.
  destruct hasEditProvider, (previousResult ≫= resultId) as [rid|];
    try done.
  by destruct (String.eqb rid EmptyString).
Qed.

(** C5, as the code has it: a forced refresh clears the debounce timer
    and, when the feature is enabled, sends at once the request that the
    timer would have sent: an edits request, with the cached result id,
    when the provider answers edits and the cache holds a non-empty result
    id, a full request in every other case; it sends nothing when the
    feature is not enabled. *)
Theorem forceHighlight_requests_as_the_timer {Diff} env (w : World Diff) :
  timer (step env w forceHighlight) = false
  /\ calls (step env w forceHighlight)
     = calls w ++
       match (if enabled env then getDocument env else None) with
       | Some doc =>
           [request
              match previousResults (this w) ≫= resultId with
              | Some rid =>
                  if hasSemanticTokensEdits doc
                     && negb (String.eqb rid EmptyString)
                  then provideDocumentSemanticTokensEdits rid (sources w)
                  else provideDocumentSemanticTokens (sources w)
              | None => provideDocumentSemanticTokens (sources w)
              end]
       | None => []
       end
  /\ calls (step env (set_timer true w) timerFires)
     = calls (step env w forceHighlight).
Proof.
  cbn [step]. split.
  { by destruct (doHighlight_highlights env true (set_timer false w))
      as [-> _]. }
  split.
  - rewrite doHighlight_calls.
    destruct (if enabled env then getDocument env else None); [|done].
    by rewrite choose_request_cases.
  - cbn -[doHighlight]. by rewrite !doHighlight_calls.
Qed.

(** C5 fails as stated: with the result "r1" in the cache and a provider
    that answers edits, the forced refresh sends an edits request. *)
Lemma forceHighlight_sends_edits :
  previousResults (this Examples.cached)
  = Some {| version := 1; resultId := Some "r1"%string; tokens := Some 0%nat |}
  /\ calls (step Examples.env_on Examples.cached forceHighlight)
     = calls Examples.cached
       ++ [request (provideDocumentSemanticTokensEdits "r1" 1)].
Proof. split; by vm_compute. Qed.

(** C6: the request of a cycle is an edits request only when the
    provider answers edits and the previous result holds a result id;
    whenever the provider does not answer edits or no result id is held,
    it is a full request. *)
Theorem edits_request_needs_resultId {Diff} env token forceFull forced
    (w : World Diff) doc :
  getDocument env = Some doc ->
  exists req,
    calls (requestHighlights_begin env token forceFull forced w)
    = calls w ++ [request req]
    /\ (forall rid t, req = provideDocumentSemanticTokensEdits rid t ->
          hasSemanticTokensEdits doc = true
          /\ forceFull = false
          /\ previousResults (this w) ≫= resultId = Some rid
          /\ t = token)
    /\ (hasSemanticTokensEdits doc = false
        \/ previousResults (this w) ≫= resultId = None ->
        req = provideDocumentSemanticTokens token).
Proof.
  intros Hdoc. eexists. split; [by apply requestHighlights_begin_calls|].
  unfold choose_request. split.
  - intros rid t. destruct (hasSemanticTokensEdits doc); [|done].
    destruct forceFull; [done|].
    destruct (previousResults (this w) ≫= resultId) as [rid'|]; [|done].
    destruct (String.eqb rid' EmptyString); [done|]. by intros [= -> ->].
  - intros [->| Hnone]; [done|].
    destruct (hasSemanticTokensEdits doc); [|done].
    destruct forceFull; [done|]. by rewrite Hnone.
Qed.

Lemma edits_request_needs_resultId_witness :
  exists req,
    calls (requestHighlights_begin Examples.env_on 1 false false
             Examples.cached)
    = calls Examples.cached ++ [request req]
    /\ (forall rid t, req = provideDocumentSemanticTokensEdits rid t ->
          hasSemanticTokensEdits Examples.doc_on = true
          /\ false = false
          /\ previousResults (this Examples.cached) ≫= resultId = Some rid
          /\ t = 1%nat)
    /\ (hasSemanticTokensEdits Examples.doc_on = false
        \/ previousResults (this Examples.cached) ≫= resultId = None ->
        req = provideDocumentSemanticTokens 1).
Proof.
  apply (edits_request_needs_resultId Examples.env_on 1 false false
           Examples.cached Examples.doc_on).
  reflexivity.
Defined.

(** *** Responses that are discarded *)

Lemma untouched_refl {Diff} (w : World Diff) : untouched w w.
Proof. by repeat split. Qed.

Lemma untouched_trans {Diff} (w1 w2 w3 : World Diff) :
  untouched w1 w2 -> untouched w2 w3 -> untouched w1 w3.
Proof.
  intros (H1 & H2 & H3 & H4) (H5 & H6 & H7 & H8).
  repeat split; etrans; eassumption.
Qed.

Lemma resume_discarded {Diff} token legend previousResult version result
    (w : World Diff) :
  token ∈ cancelled w \/ result = None ->
  requestHighlights_resume token legend previousResult version result w
  = (w, Return None).
Proof.
  intros H. unfold requestHighlights_resume, isCancellationRequested.
  destruct H as [H| ->].
  - by rewrite bool_decide_eq_true_2.
  - by case_bool_decide.
Qed.

Lemma providerResponds_discarded {Diff} env (w : World Diff) token result :
  token ∈ cancelled w \/ result = None ->
  untouched w (step env w (providerResponds token result)).
Proof.
  intros H. cbn [step].
  destruct (suspended w !! token) as [[forced legend pr v|forced]|];
    try apply untouched_refl.
  unfold doHighlight_items. rewrite resume_discarded; [|done].
  by repeat split.
Qed.

Lemma onChange_cancels {Diff} env (w : World Diff) token :
  tokenSource (this w) = Some token ->
  token ∈ cancelled (step env w onChange)
  /\ untouched w (step env w onChange).
Proof.
  intros Hts. cbn [step]. split.
  - cbn. rewrite cancel_cancelled, Hts. cbn. set_solver.
  - destruct (cancel_fields w) as (_ & _ & _ & Hc & Hh & Hp & _).
    pose proof (cancel_arrays w). by repeat split.
Qed.

(** C7: a response that is observed when the cancellation token of its
    request has been triggered, or that is absent, is dropped: the result
    cache and the highlights snapshot stay as they are and no call to
    the diff or apply collaborator is made; this is what happens to the
    response of a request in flight when a document change came first. *)
Theorem cancelled_response_is_discarded {Diff} env env' (w : World Diff)
    token result :
  (token ∈ cancelled w \/ result = None ->
   untouched w (step env w (providerResponds token result)))
  /\ (tokenSource (this w) = Some token ->
      untouched w
        (step env' (step env w onChange) (providerResponds token result))).
Proof.
  split; [apply providerResponds_discarded|].
  intros Hts. destruct (onChange_cancels env w token Hts) as [Hin Hun].
  eapply untouched_trans; [exact Hun|].
  apply providerResponds_discarded. by left.
Qed.

(** The request of the first cycle is in flight when the document
    changes; its response then arrives with tokens. *)
Lemma cancelled_response_is_discarded_witness :
  untouched (step Examples.env_on Examples.requesting onChange)
    (step Examples.env_on (step Examples.env_on Examples.requesting onChange)
       (providerResponds 0
          (Some (SemanticTokens (Some "r1"%string) [0;0;3;0;0]))))
  /\ untouched Examples.requesting
       (step Examples.env_on (step Examples.env_on Examples.requesting onChange)
          (providerResponds 0
             (Some (SemanticTokens (Some "r1"%string) [0;0;3;0;0])))).
Proof.
  split.
  - apply (proj1 (cancelled_response_is_discarded Examples.env_on
             Examples.env_on
             (step Examples.env_on Examples.requesting onChange) 0%nat
             (Some (SemanticTokens (Some "r1"%string) [0;0;3;0;0])))).
    left. by vm_compute.
  - apply (proj2 (cancelled_response_is_discarded Examples.env_on
             Examples.env_on Examples.requesting 0%nat
             (Some (SemanticTokens (Some "r1"%string) [0;0;3;0;0])))).
    by vm_compute.
Defined.

(** *** Disabling and disposing *)

(** C8, as the code has it: [setState(false)] clears the debounce timer
    and has the rendered highlights cleared, and leaves the requests in
    flight and the result cache as they are; [dispose] clears the
    debounce timer, cancels the source that [tokenSource] holds, if it
    holds one, and no other, empties the result cache and the snapshot,
    and calls no collaborator. *)
Theorem setState_false_and_dispose {Diff} env (w : World Diff) :
  (timer (step env w (setState false)) = false
   /\ calls (step env w (setState false)) = calls w ++ [clearNamespace]
   /\ this (step env w (setState false)) = this w
   /\ cancelled (step env w (setState false)) = cancelled w
   /\ suspended (step env w (setState false)) = suspended w)
  /\ (timer (step env w dispose) = false
      /\ tokenSource (this (step env w dispose)) = None
      /\ cancelled (step env w dispose)
         = from_option singleton ∅ (tokenSource (this w)) ∪ cancelled w
      /\ suspended (step env w dispose) = suspended w
      /\ previousResults (this (step env w dispose)) = None
      /\ _highlights (this (step env w dispose)) = Some []
      /\ calls (step env w dispose) = calls w).
Proof.
  split; [done|]. cbn [step].
  set (w1 := set_this _ _).
  destruct (cancel_fields w1) as (-> & _ & -> & -> & -> & -> & ->).
  by rewrite cancel_cancelled.
Qed.

(** C8 fails as stated: with a request in flight and a result in the
    cache, [setState(false)] cancels nothing and keeps the cache, so that
    the response still reaches the diff collaborator; [dispose] leaves
    the rendered highlights to themselves; and when [tokenSource] has been
    cleared under a request in flight, [dispose] does not cancel that
    request, whose response then fills the cache and the snapshot again. *)
Lemma setState_false_keeps_request_and_cache :
  tokenSource (this Examples.busy) = Some 1%nat
  /\ tokenSource (this (step Examples.env_on Examples.busy (setState false)))
     = Some 1%nat
  /\ isCancellationRequested
       (step Examples.env_on Examples.busy (setState false)) 1 = false
  /\ previousResults
       (this (step Examples.env_on Examples.busy (setState false)))
     = Some {| version := 1; resultId := Some "r1"%string;
               tokens := Some 0%nat |}
  /\ calls (run Examples.busy
              [ (Examples.env_on, setState false);
                (Examples.env_on,
                 providerResponds 1
                   (Some (SemanticTokens (Some "r2"%string) [0;0;4;1;0]))) ])
     = calls Examples.busy
       ++ [ clearNamespace;
            diffHighlights
              [Examples.item "CocSem_function" 0 0 0 4 Examples.plain] ]
  /\ calls (step Examples.env_on Examples.busy dispose) = calls Examples.busy
  /\ isCancellationRequested
       (step Examples.env_on Examples.orphaned dispose) 1 = false
  /\ highlights
       (this (run Examples.orphaned
                [ (Examples.env_on, dispose);
                  (Examples.env_on,
                   providerResponds 1
                     (Some (SemanticTokens (Some "r2"%string)
                              [0;0;4;1;0]))) ]))
     = Some [Examples.item "CocSem_function" 0 0 0 4 Examples.plain].
Proof. repeat apply conj; by vm_compute. Qed.

(** *** The highlights snapshot *)

Lemma decode_with_legend legend (tokens : list Z) :
  decode_with (Some legend) (Some tokens) = Decoder.decode legend tokens.
Proof. by destruct tokens. Qed.

Lemma content_inserted {Diff} (w : World Diff) f array (l : list Z) :
  content (set_this f (set_arrays (insert array l) w)) array = l.
Proof. unfold content. cbn. by rewrite lookup_insert_eq. Qed.

(** Lines 117-166 for a full response to a request that is not
    cancelled. *)
Lemma resume_full {Diff} token legend previousResult v rid data
    (w : World Diff) :
  isCancellationRequested w token = false ->
  requestHighlights_resume token (Some legend) previousResult v
    (Some (SemanticTokens rid data)) w
  = match Decoder.decode legend data with
    | Return res =>
        (set_this (set_highlights res)
           (set_this
              (set_previousResults
                 (Some {| version := v; resultId := rid;
                          tokens := Some token |}))
              (set_arrays (insert token data) w)),
         Return (Some res))
    | Throw e =>
        (set_this
           (set_previousResults
              (Some {| version := v; resultId := rid;
                       tokens := Some token |}))
           (set_arrays (insert token data) w),
         Throw e)
    end.
Proof.
  intros Hc. unfold requestHighlights_resume. rewrite Hc.
  cbn [tokens_of result_resultId]. cbv zeta.
  cbn [fmap option_fmap option_map].
  by rewrite content_inserted, decode_with_legend.
Qed.

Lemma tokens_of_this {Diff} token previousResult result (w w' : World Diff) c :
  tokens_of token previousResult result w = (w', c) ->
  this w' = this w /\ calls w' = calls w /\ cancelled w' = cancelled w
  /\ sources w' = sources w /\ suspended w' = suspended w
  /\ timer w' = timer w.
Proof.
  destruct result as [rid data|rid edits]; cbn [tokens_of].
  - by intros [= <- <-].
  - destruct previousResult as [r|]; [|by intros [= <- <-]].
    destruct (tokens r), edits; by intros [= <- <-].
Qed.

Lemma resume_keeps_highlights {Diff} token legend previousResult version
    result (w w' : World Diff) c :
  requestHighlights_resume token legend previousResult version result w
  = (w', c) ->
  (exists items, c = Return (Some items))
  \/ _highlights (this w') = _highlights (this w).
Proof.
  unfold requestHighlights_resume.
  destruct (isCancellationRequested w token); [intros [= <- <-]; by right|].
  destruct result as [result|]; [|intros [= <- <-]; by right].
  destruct (tokens_of token previousResult result w) as [w1 [tokens|e]] eqn:Ht;
    destruct (tokens_of_this _ _ _ _ _ _ Ht) as (Hthis & _);
    [|intros [= <- <-]; right; by rewrite Hthis].
  destruct (decode_with legend _) as [res|e]; intros [= <- <-].
  - left. by exists res.
  - right. cbn. by rewrite Hthis.
Qed.

Lemma step_keeps_highlights {Diff} env (w : World Diff) e :
  e <> dispose ->
  completes_decode w e = false ->
  _highlights (this (step env w e)) = _highlights (this w).
Proof.
  intros Hd Hc. destruct e as [| |b| | |token result|token diff]; cbn [step].
  - cbn -[cancel]. by destruct (cancel_fields w) as (_ & _ & _ & _ & -> & _).
  - by destruct (doHighlight_highlights env true (set_timer false w))
      as (_ & -> & _).
  - by destruct b.
  - done.
  - destruct (timer w); [|done].
    by destruct (doHighlight_highlights env false (set_timer false w))
      as (_ & -> & _).
  - cbn [completes_decode] in Hc.
    destruct (suspended w !! token) as [[forced legend pr v|forced]|];
      [|done|done].
    unfold doHighlight_items.
    destruct (requestHighlights_resume token legend pr v result
                (set_suspended (delete token) w)) as [w' c] eqn:Hr.
    destruct (resume_keeps_highlights _ _ _ _ _ _ _ _ Hr) as [[items ->]|Hk];
      [done|].
    destruct c as [[items|]|err]; [done|done|].
    unfold fail. by destruct forced.
  - destruct (suspended w !! token) as [[forced legend pr v|forced]|];
      [done| |done].
    unfold doHighlight_diff.
    by destruct (isCancellationRequested _ token), diff.
Qed.

Lemma run_before_decode_highlights {Diff}
    (trace : list (Env * Event Diff)) : forall w0 w : World Diff,
  run_before_decode w0 trace = Some w ->
  _highlights (this w) = _highlights (this w0).
Proof.
  induction trace as [|[env e] trace IH]; intros w0 w Hrun;
    [by injection Hrun as <-|].
  cbn [run_before_decode] in Hrun.
  destruct (completes_decode w0 e) eqn:Hc; [by destruct e|].
  assert (e <> dispose) as Hd by (intros ->; discriminate Hrun).
  assert (run_before_decode (step env w0 e) trace = Some w) as Hrun'
    by (by destruct e).
  rewrite (IH _ _ Hrun'). by apply step_keeps_highlights.
Qed.

(** C10: as long as no decode has completed (and the buffer has not been
    disposed), [highlights] is undefined, not an empty list: the
    constructor assigns nothing to the field and nothing else writes it;
    right after [dispose] it is the empty list. *)
Theorem highlights_undefined_before_first_decode {Diff}
    (trace : list (Env * Event Diff)) (w w' : World Diff) env :
  run_before_decode constructor trace = Some w ->
  highlights (this (constructor (Diff := Diff))) = None
  /\ highlights (this w) = None
  /\ highlights (this (step env w' dispose)) = Some [].
Proof.
  intros Hrun. split; [done|]. split.
  - unfold highlights. by rewrite (run_before_decode_highlights _ _ _ Hrun).
  - unfold highlights. cbn [step].
    set (w1 := set_this _ _).
    by destruct (cancel_fields w1) as (_ & _ & _ & _ & -> & _).
Qed.

(** A request goes out and is cancelled by a change, its response comes
    late, the feature is switched off and on, a forced refresh finds no
    answer: [highlights] is still undefined. *)
Lemma highlights_undefined_before_first_decode_witness :
  highlights (this (constructor (Diff := unit))) = None
  /\ highlights
       (this (run (Diff := unit) constructor
          [ (Examples.env_on, timerFires);
            (Examples.env_on, onChange);
            (Examples.env_on, providerResponds 0
               (Some (SemanticTokens (Some "r1"%string) [0;0;3;0;0])));
            (Examples.env_on, setState false);
            (Examples.env_on, setState true);
            (Examples.env_on, forceHighlight);
            (Examples.env_on, providerResponds 1 None) ])) = None
  /\ highlights (this (step Examples.env_on Examples.cached dispose)) = Some [].
Proof.
  apply (highlights_undefined_before_first_decode (Diff := unit)
           [ (Examples.env_on, timerFires);
             (Examples.env_on, onChange);
             (Examples.env_on, providerResponds 0
                (Some (SemanticTokens (Some "r1"%string) [0;0;3;0;0])));
             (Examples.env_on, setState false);
             (Examples.env_on, setState true);
             (Examples.env_on, forceHighlight);
             (Examples.env_on, providerResponds 1 None) ]
           _ Examples.cached Examples.env_on).
  by vm_compute.
Defined.

(** *** A type index outside the legend *)

(** C4, as the code has it: a quintuple whose type index is outside the
    list of type names raises no error. For an array of unsigned numbers
    within the bounds of [Range.create], decoding returns; the item of
    that quintuple is emitted under the group CocSem_undefined without
    inclusivity flags, and the response is treated like any other:
    [requestHighlights] returns the items, the snapshot is replaced by
    them and they are handed to the diff collaborator. *)
Theorem typeIndex_out_of_range_is_decoded {Diff} legend (tokens : list Z)
    (n i : nat) (w : World Diff) token forced previousResult v rid :
  List.length tokens = (5 * n)%nat ->
  Forall (fun t => 0 <= t) tokens ->
  Spec.within_bounds tokens n ->
  (i < n)%nat ->
  Z.of_nat (List.length (Decoder.tokenTypes legend))
    <= Spec.typeIndex_of tokens i ->
  isCancellationRequested w token = false ->
  exists items it,
    Decoder.decode legend tokens = Return items
    /\ items !! i = Some it
    /\ Decoder.hlGroup it = "CocSem_undefined"%string
    /\ Decoder.opts it = Examples.plain
    /\ snd (requestHighlights_resume token (Some legend) previousResult v
              (Some (SemanticTokens rid tokens)) w)
       = Return (Some items)
    /\ _highlights
         (this (doHighlight_items token forced (Some legend) previousResult v
                  (Some (SemanticTokens rid tokens)) w))
       = Some items
    /\ calls (doHighlight_items token forced (Some legend) previousResult v
                (Some (SemanticTokens rid tokens)) w)
       = calls w ++ [diffHighlights items].
Proof.
  intros Hlen Hpos Hb Hi Hd Hc.
  apply (decode_returns_within_bounds legend tokens n Hlen Hpos) in Hb.
  destruct (items_of_out_of_range legend tokens n i Hlen Hi (or_intror Hd))
    as (it & Hit & Hg & Ho).
  exists (Quintuples.items_of legend tokens), it.
  do 4 (split; [done|]).
  unfold doHighlight_items. by rewrite resume_full, Hb.
Qed.

Lemma typeIndex_out_of_range_is_decoded_witness :
  exists items it,
    Decoder.decode Examples.legend_vf [0;0;3;7;0] = Return items
    /\ items !! 0%nat = Some it
    /\ Decoder.hlGroup it = "CocSem_undefined"%string
    /\ Decoder.opts it = Examples.plain
    /\ snd (requestHighlights_resume 0 (Some Examples.legend_vf) None 1
              (Some (SemanticTokens None [0;0;3;7;0])) Examples.requesting)
       = Return (Some items)
    /\ _highlights
         (this (doHighlight_items 0 false (Some Examples.legend_vf) None 1
                  (Some (SemanticTokens None [0;0;3;7;0]))
                  Examples.requesting))
       = Some items
    /\ calls (doHighlight_items 0 false (Some Examples.legend_vf) None 1
                (Some (SemanticTokens None [0;0;3;7;0])) Examples.requesting)
       = calls Examples.requesting ++ [diffHighlights items].
Proof.
  apply (typeIndex_out_of_range_is_decoded Examples.legend_vf [0;0;3;7;0]
           1 0 Examples.requesting 0%nat false None 1 None).
  - reflexivity.
  - repeat constructor; lia.
  - intros i Hi. assert (i = 0%nat) as -> by lia. by vm_compute.
  - lia.
  - by vm_compute.
  - by vm_compute.
Defined.

(** C4 fails as stated: under the legend with two type names, the
    response 0,0,3,7,0 makes [requestHighlights] return an item of group
    CocSem_undefined; nothing is logged or rejected, the snapshot is
    replaced, and the change set the diff collaborator answers is
    applied. *)
Lemma typeIndex_out_of_range_no_error :
  snd (requestHighlights_resume 0 (Some Examples.legend_vf) None 1
         (Some (SemanticTokens None [0;0;3;7;0])) Examples.requesting)
  = Return (Some [Examples.item "CocSem_undefined" 0 0 0 3 Examples.plain])
  /\ highlights
       (this (run Examples.requesting
          [ (Examples.env_on,
             providerResponds 0 (Some (SemanticTokens None [0;0;3;7;0]))) ]))
     = Some [Examples.item "CocSem_undefined" 0 0 0 3 Examples.plain]
  /\ calls (run Examples.requesting
              [ (Examples.env_on,
                 providerResponds 0 (Some (SemanticTokens None [0;0;3;7;0])));
                (Examples.env_on, diffResponds 0 (Some tt)) ])
     = [ request (provideDocumentSemanticTokens 0);
         diffHighlights
           [Examples.item "CocSem_undefined" 0 0 0 3 Examples.plain];
         applyDiffHighlights 99 tt ].
Proof. repeat apply conj; by vm_compute. Qed.

End OrchestratorFacts.

(** * Further properties *)

(** ** Decoder: any array, also one that is not made of quintuples *)

Section DecoderShape.

Import Decoder Quintuples.

Lemma loop_items_res (rels : list RelativeHighlight) : forall l c res,
  loop_items rels l c res = res ++ loop_items rels l c [].
Proof.
  induction rels as [|r rels IH]; intros l c res; cbn [loop_items].
  - by rewrite app_nil_r.
  - rewrite IH. symmetry. rewrite IH. unfold addHighlights.
    by rewrite app_nil_l, app_assoc.
Qed.

Lemma loop_items_length (rels : list RelativeHighlight) : forall l c res,
  List.length (loop_items rels l c res)
  = (List.length res + List.length rels)%nat.
Proof.
  induction rels as [|r rels IH]; intros l c res; cbn [loop_items].
  - simpl. lia.
  - rewrite IH. unfold addHighlights. rewrite length_app. simpl. lia.
Qed.

Lemma relatives_length legend (n : nat) : forall tokens : list Z,
  List.length tokens = n ->
  List.length (relatives legend tokens) = ((n + 4) / 5)%nat.
Proof.
  induction n as [n IH] using lt_wf_ind. intros tokens Hn.
  destruct tokens as [|a [|b [|c [|d [|e rest]]]]]; simpl in Hn; subst n;
    try reflexivity.
  cbn [relatives List.length].
  rewrite (IH (List.length rest)); [|lia|done].
  replace (S (S (S (S (S (List.length rest))))) + 4)%nat
    with (List.length rest + 4 + 1 * 5)%nat by lia.
  rewrite Nat.div_add by lia. lia.
Qed.

Lemma Range_create_not_uinteger (one two three four : JS.value) :
  is_uinteger two = false \/ is_uinteger four = false ->
  Range_create one two three four
  = Throw (Error "Range#create called with invalid arguments"
             [one; two; three; four]).
Proof.
  unfold Range_create. intros [-> | ->];
    by rewrite ?andb_false_r, ?andb_false_l.
Qed.

Lemma add_Undefined (v : JS.value) : JS.add v JS.Undefined = JS.NaN.
Proof. by destruct v. Qed.

(** A last group of one or two numbers has no start character or no
    length, and its range is refused. *)
Lemma first_error_partial legend (n : nat) : forall (tokens : list Z) l c,
  List.length tokens = n ->
  (n mod 5 = 1 \/ n mod 5 = 2)%nat ->
  is_Some (first_error (relatives legend tokens) l c).
Proof.
  induction n as [n IH] using lt_wf_ind. intros tokens l c Hn Hmod.
  destruct tokens as [|a [|b [|c' [|d [|e rest]]]]]; simpl in Hn; subst n.
  - by destruct Hmod.
  - cbn [relatives first_error]. rewrite Range_create_not_uinteger; [done|].
    left. cbn. destruct a; cbn; by rewrite ?add_Undefined.
  - cbn [relatives first_error]. rewrite Range_create_not_uinteger; [done|].
    right. cbn. by rewrite add_Undefined.
  - by destruct Hmod.
  - by destruct Hmod.
  - cbn [relatives first_error].
    destruct (Range_create _ _ _ _); [|done].
    apply (IH (List.length rest)); [lia|done|].
    replace (S (S (S (S (S (List.length rest))))))
      with (List.length rest + 1 * 5)%nat in Hmod by lia.
    by rewrite Nat.Div0.mod_add in Hmod.
Qed.

(** X1: when decoding returns, it returns one item for each quintuple
    begun, a last group of three or four numbers included; an array that
    ends in a group of one or two numbers is not decoded at all: the
    range of that group is refused and decoding throws. *)
Theorem decode_length legend (tokens : list Z) :
  (forall items, decode legend tokens = Return items ->
     List.length items = ((List.length tokens + 4) / 5)%nat)
  /\ ((List.length tokens mod 5 = 1 \/ List.length tokens mod 5 = 2)%nat ->
      exists e, decode legend tokens = Throw e).
Proof.
  split.
  - intros items [_ ->]%decode_Return. unfold items_of.
    rewrite loop_items_length.
    by rewrite (relatives_length legend (List.length tokens)).
  - intros Hmod. unfold decode. rewrite highlight_loop_first_error.
    destruct (first_error_partial legend _ tokens (JS.Num 0) (JS.Num 0)
                eq_refl Hmod) as [e ->].
    by exists e.
Qed.

Lemma decode_length_witness :
  (forall items,
     decode Examples.legend_vf [0;0;3;0;0; 0;4;2;1] = Return items ->
     List.length items
     = ((List.length [0;0;3;0;0; 0;4;2;1] + 4) / 5)%nat)
  /\ exists e, decode Examples.legend_vf [0;0;3;0;0; 0] = Throw e.
Proof.
  split.
  - apply (proj1 (decode_length Examples.legend_vf [0;0;3;0;0; 0;4;2;1])).
  - apply (proj2 (decode_length Examples.legend_vf [0;0;3;0;0; 0])).
    left. reflexivity.
Defined.

Lemma loop_items_Forall (P : HighlightItem -> Prop) :
  (forall r l c,
     P {| hlGroup := JS.concat HLGROUP_PREFIX (tokenType r);
          range := range_of l c l (JS.add c (length r));
          opts := options_of (tokenType r) |}) ->
  forall rels l c res,
    Forall P res -> Forall P (loop_items rels l c res).
Proof.
  intros HP. induction rels as [|r rels IH]; intros l c res Hres; [done|].
  cbn [loop_items]. apply IH. unfold addHighlights.
  apply Forall_app. split; [done|]. constructor; [|done]. apply HP.
Qed.

Lemma options_of_cases (name : option string) :
  ((name = Some "variable"%string \/ name = Some "string"%string)
   /\ options_of name = Examples.inclusive)
  \/ (name <> Some "variable"%string /\ name <> Some "string"%string
      /\ options_of name = Examples.plain).
Proof.
  unfold options_of. case_bool_decide as H; [by left|].
  right. repeat split; [intros ->; apply H; by left
                       |intros ->; apply H; by right].
Qed.

Lemma concat_prefix_inj (name : option string) (s : string) :
  s <> "undefined"%string ->
  JS.concat HLGROUP_PREFIX name = String.append HLGROUP_PREFIX s ->
  name = Some s.
Proof.
  intros Hs. unfold JS.concat, HLGROUP_PREFIX. cbn [String.append].
  intros [= H]. change (default "undefined"%string name = s) in H.
  destruct name as [x|]; cbn in H; congruence.
Qed.

(** X2: every item that decoding returns is on one line and has [combine]
    false; it has both inclusivity flags when its group is CocSem_variable
    or CocSem_string, and none otherwise; its group begins with the
    prefix. *)
Theorem decode_item_shape legend (tokens : list Z) items :
  decode legend tokens = Return items ->
  Forall (fun it =>
      line (start (range it)) = line (end' (range it))
      /\ combine (opts it) = Some false
      /\ (exists name, hlGroup it = String.append "CocSem_" name)
      /\ (((hlGroup it = "CocSem_variable"%string
            \/ hlGroup it = "CocSem_string"%string)
           /\ opts it = Examples.inclusive)
          \/ (hlGroup it <> "CocSem_variable"%string
              /\ hlGroup it <> "CocSem_string"%string
              /\ opts it = Examples.plain)))
    items.
Proof.
  intros [_ ->]%decode_Return.
  unfold items_of. apply loop_items_Forall; [|done].
  intros r l c. cbn [hlGroup range opts start end' line range_of].
  split; [done|]. split.
  { by destruct (options_of_cases (tokenType r)) as [[_ ->]|(_ & _ & ->)]. }
  split; [by eexists|].
  destruct (options_of_cases (tokenType r)) as [[[->| ->] ->]|(H1 & H2 & ->)].
  - left. split; [by left|done].
  - left. split; [by right|done].
  - right. split; [|split; [|done]]; intros Hg.
    + apply H1. by apply (concat_prefix_inj _ "variable").
    + apply H2. by apply (concat_prefix_inj _ "string").
Qed.

Lemma decode_item_shape_witness :
  Forall (fun it =>
      line (start (range it)) = line (end' (range it))
      /\ combine (opts it) = Some false
      /\ (exists name, hlGroup it = String.append "CocSem_" name)
      /\ (((hlGroup it = "CocSem_variable"%string
            \/ hlGroup it = "CocSem_string"%string)
           /\ opts it = Examples.inclusive)
          \/ (hlGroup it <> "CocSem_variable"%string
              /\ hlGroup it <> "CocSem_string"%string
              /\ opts it = Examples.plain)))
    [ Examples.item "CocSem_variable" 0 0 0 3 Examples.inclusive;
      Examples.item "CocSem_function" 0 4 0 6 Examples.plain ].
Proof.
  apply (decode_item_shape Examples.legend_vf [0;0;3;0;0; 0;4;2;1;0]).
  reflexivity.
Defined.

Lemma flat_nth_length (qs : list quintuple) (i : nat) a b c d e :
  qs !! i = Some (a, b, c, d, e) ->
  nth (5 * i + 2)%nat (flat qs) 0 = c.
Proof. intros Hq. by rewrite (flat_nth qs i 2 a b c d e Hq) by lia. Qed.

(** X3: for an array made of quintuples, an item that decoding returns
    ends [length] characters after its start. *)
Theorem decode_end_character legend (tokens : list Z) (n i : nat) items it :
  List.length tokens = (5 * n)%nat ->
  decode legend tokens = Return items ->
  items !! i = Some it ->
  exists l c,
    start (range it) = {| line := JS.Num l; character := JS.Num c |}
    /\ end' (range it)
       = {| line := JS.Num l;
            character := JS.Num (c + nth (5 * i + 2)%nat tokens 0) |}.
Proof.
  intros Hlen [_ ->]%decode_Return Hit.
  destruct (flat_exists n tokens Hlen) as [qs [-> <-]].
  destruct (items_of_lookup_flat _ _ _ _ Hit)
    as [[[[[a b] c] d] e] (Hq & -> & _)].
  rewrite (flat_nth_length _ _ _ _ _ _ _ Hq). by eexists _, _.
Qed.

Lemma decode_end_character_witness :
  exists l c,
    start (range (Examples.item "CocSem_function" 1 4 1 6 Examples.plain))
    = {| line := JS.Num l; character := JS.Num c |}
    /\ end' (range (Examples.item "CocSem_function" 1 4 1 6 Examples.plain))
       = {| line := JS.Num l;
            character :=
              JS.Num (c + nth (5 * 1 + 2)%nat Examples.two_lines 0) |}.
Proof.
  apply (decode_end_character Examples.legend_vf Examples.two_lines 3 1
           [ Examples.item "CocSem_variable" 0 2 0 5 Examples.inclusive;
             Examples.item "CocSem_function" 1 4 1 6 Examples.plain;
             Examples.item "CocSem_variable" 1 7 1 8 Examples.inclusive ]).
  - reflexivity.
  - reflexivity.
  - reflexivity.
Defined.

Lemma relatives_flat_app legend (qs : list quintuple) (rest : list Z) :
  relatives legend (flat qs ++ rest)
  = relatives legend (flat qs) ++ relatives legend rest.
Proof.
  induction qs as [|[[[[a b] c] d] e] qs IH]; [done|].
  cbn [flat app relatives]. by rewrite IH.
Qed.

(** X4: a last group of four numbers decodes like the quintuple it becomes
    with any fifth number. *)
Theorem decode_missing_modifiers legend (qs : list quintuple) (a b c d e : Z) :
  decode legend (flat qs ++ [a; b; c; d])
  = decode legend (flat qs ++ [a; b; c; d; e]).
Proof.
  unfold decode. apply highlight_loop_same. rewrite !relatives_flat_app.
  apply Forall2_app.
  - apply Forall_Forall2_diag, Forall_forall. intros r _. by repeat split.
  - repeat constructor.
Qed.

Lemma loop_items_app (r1 r2 : list RelativeHighlight) : forall l c res,
  exists l' c',
    loop_items (r1 ++ r2) l c res
    = loop_items r2 l' c' (loop_items r1 l c res).
Proof.
  induction r1 as [|r r1 IH]; intros l c res; cbn [app loop_items].
  - by exists l, c.
  - apply IH.
Qed.

Lemma first_error_app (r1 r2 : list RelativeHighlight) : forall l c,
  first_error (r1 ++ r2) l c = None -> first_error r1 l c = None.
Proof.
  induction r1 as [|r r1 IH]; intros l c; cbn [app first_error]; [done|].
  destruct (Range_create _ _ _ _); [apply IH|done].
Qed.

(** X5: numbers added after an array of quintuples leave the items of the
    array as they are: when the longer array is decoded, so is the array,
    and the items of the longer one are those of the array followed by
    one item for each group of the added numbers. *)
Theorem decode_prefix_stable legend (qs : list quintuple) (more : list Z)
    longer :
  decode legend (flat qs ++ more) = Return longer ->
  exists items added,
    decode legend (flat qs) = Return items
    /\ longer = items ++ added
    /\ List.length added = ((List.length more + 4) / 5)%nat.
Proof.
  intros [Herr ->]%decode_Return. rewrite relatives_flat_app in Herr.
  apply first_error_app in Herr.
  unfold items_of. rewrite relatives_flat_app.
  destruct (loop_items_app (relatives legend (flat qs))
              (relatives legend more) (JS.Num 0) (JS.Num 0) [])
    as (l' & c' & ->).
  rewrite loop_items_res.
  exists (loop_items (relatives legend (flat qs)) (JS.Num 0) (JS.Num 0) []),
    (loop_items (relatives legend more) l' c' []).
  split; [by apply decode_Return|]. split; [done|].
  rewrite loop_items_length. cbn [List.length].
  by rewrite (relatives_length legend (List.length more)).
Qed.

Lemma decode_prefix_stable_witness :
  exists items added,
    decode Examples.legend_vf (flat [(0, 0, 3, 0, 0)]) = Return items
    /\ [ Examples.item "CocSem_variable" 0 0 0 3 Examples.inclusive;
         Examples.item "CocSem_function" 0 4 0 6 Examples.plain ]
       = items ++ added
    /\ List.length added = ((List.length [0;4;2;1;0] + 4) / 5)%nat.
Proof.
  apply (decode_prefix_stable Examples.legend_vf [(0, 0, 3, 0, 0)]
           [0;4;2;1;0]).
  reflexivity.
Defined.

End DecoderShape.

(** ** Delta applier: lengths, bounds and round trips *)

Section DeltaApplierBounds.

Import DeltaApplier.

(** X7: the length after an edit with unsigned fields: what is kept before
    [start], the data, and what is left after the deleted part. *)
Theorem apply_edit_length (tokens : list Z) (s k : nat) (d : list Z) :
  List.length
    (apply_edit tokens
       {| start := Z.of_nat s; deleteCount := Z.of_nat k; data := d |})
  = (min s (List.length tokens) + List.length d
     + (List.length tokens - (s + k)))%nat.
Proof.
  rewrite apply_edit_unsigned, !length_app, length_take, length_drop. lia.
Qed.

(** X8: past the end nothing fails: an edit that starts at or after the end
    appends its data whatever it asks to delete, and an edit that asks to
    delete beyond the end deletes up to the end. *)
Theorem apply_edit_past_the_end (tokens : list Z) (s k : nat) (d : list Z) :
  ((List.length tokens <= s)%nat ->
   apply_edit tokens
     {| start := Z.of_nat s; deleteCount := Z.of_nat k; data := d |}
   = tokens ++ d)
  /\ ((List.length tokens <= s + k)%nat ->
      apply_edit tokens
        {| start := Z.of_nat s; deleteCount := Z.of_nat k; data := d |}
      = take s tokens ++ d).
Proof.
  rewrite apply_edit_unsigned. split; intros H.
  - rewrite take_ge, drop_ge by lia. by rewrite app_nil_r.
  - rewrite drop_ge by lia. by rewrite app_nil_r.
Qed.

Lemma apply_edit_past_the_end_witness :
  apply_edit [0;0;3;0;0]
    {| start := 7; deleteCount := 5; data := [1;2;3;0;0] |}
  = [0;0;3;0;0] ++ [1;2;3;0;0]
  /\ apply_edit [0;0;3;0;0]
       {| start := 3; deleteCount := 9; data := [4] |}
     = take 3 [0;0;3;0;0] ++ [4].
Proof.
  split.
  - apply (proj1 (apply_edit_past_the_end [0;0;3;0;0] 7 5 [1;2;3;0;0])).
    simpl. lia.
  - apply (proj2 (apply_edit_past_the_end [0;0;3;0;0] 3 9 [4])).
    simpl. lia.
Defined.

(** X9: an edit that puts back the numbers it takes out changes nothing, at
    any position and for any count. *)
Theorem apply_edit_identity (tokens : list Z) (s k : nat) :
  apply_edit tokens
    {| start := Z.of_nat s; deleteCount := Z.of_nat k;
       data := take k (drop s tokens) |}
  = tokens.
Proof.
  rewrite apply_edit_unsigned.
  rewrite <- (drop_drop tokens k s), take_drop. apply take_drop.
Qed.

(** An edit that deletes the whole array leaves its data. *)
Lemma apply_edit_replace_all (tokens d : list Z) :
  apply_edit tokens
    {| start := 0; deleteCount := Z.of_nat (List.length tokens); data := d |}
  = d.
Proof.
  etrans; [apply (apply_edit_unsigned tokens 0 (List.length tokens) d)|].
  rewrite take_0, drop_ge by (simpl; lia). by rewrite app_nil_r.
Qed.

End DeltaApplierBounds.

(** ** Life cycle: availability, bursts of changes, responses *)

Section OrchestratorMore.

Import Orchestrator.

Lemma enabled_true_iff env :
  enabled env = true
  <-> config_enabled env = true
      /\ exists doc, getDocument env = Some doc
           /\ attached doc = true
           /\ is_Some (getLegend doc)
           /\ hasProvider doc = true.
Proof.
  unfold enabled. destruct (config_enabled env); cbn [negb].
  2: { split; [done|]. by intros [? _]. }
  destruct (getDocument env) as [doc|].
  2: { split; [done|]. by intros (_ & ? & ? & _). }
  destruct (attached doc) eqn:Ha; cbn [negb].
  2: { split; [done|]. intros (_ & ? & [= <-] & ? & _). congruence. }
  destruct (getLegend doc) as [l|] eqn:Hl.
  2: { split; [done|]. intros (_ & ? & [= <-] & _ & [? ?] & _). congruence. }
  split.
  - intros Hp. split; [done|]. exists doc. by repeat split; eauto.
  - by intros (_ & ? & [= <-] & _ & _ & ?).
Qed.

(** X10: [checkState] returns exactly when [enabled] is true, and throws
    otherwise; with the configuration switched off it is the error of the
    configuration that is thrown, whatever the document. *)
Theorem checkState_agrees_with_enabled env :
  (checkState env = Return tt <-> enabled env = true)
  /\ (enabled env = false <-> exists e, checkState env = Throw e)
  /\ checkState {| config_enabled := false; getDocument := getDocument env |}
     = Throw (Error "SemanticTokens highlights disabled by configuration" []).
Proof.
  split; [|split; [|done]]; unfold checkState, enabled;
  destruct (config_enabled env); cbn [negb].
  all: try (destruct (getDocument env) as [doc|]);
    try (destruct (attached doc); cbn [negb]);
    try (destruct (getLegend doc));
    try (destruct (hasProvider doc); cbn [negb]).
  all: split; try done; try (by eexists); by intros [? ?].
Qed.

Lemma set_timer_eta {Diff} (w : World Diff) : set_timer (timer w) w = w.
Proof. by destruct w. Qed.

(** X11: when the feature is not available (switched off, no document, not
    attached, no legend or no provider), a forced refresh and the debounce
    timer running out do nothing but clear the timer: no request, no
    cancellation of a request in flight, no error. *)
Theorem unavailable_is_silent {Diff} env (w : World Diff) :
  enabled env = false ->
  step env w forceHighlight = set_timer false w
  /\ step env w timerFires = set_timer false w.
Proof.
  intros Hen. cbn [step]. unfold doHighlight. rewrite Hen. cbn [negb].
  split; [done|]. destruct (timer w) eqn:Ht; [done|].
  by rewrite <- Ht, set_timer_eta.
Qed.

Lemma unavailable_is_silent_witness :
  step {| config_enabled := false; getDocument := Some Examples.doc_on |}
    Examples.busy forceHighlight
  = set_timer false Examples.busy
  /\ step {| config_enabled := false; getDocument := Some Examples.doc_on |}
       Examples.busy timerFires
     = set_timer false Examples.busy.
Proof.
  apply (unavailable_is_silent
           {| config_enabled := false; getDocument := Some Examples.doc_on |}
           Examples.busy).
  reflexivity.
Defined.

Lemma cancel_idempotent {Diff} (w : World Diff) b :
  cancel (set_timer b (cancel w)) = set_timer b (cancel w).
Proof. by destruct w as [[[t|] hl pr] tm cn sr sp cl ar]. Qed.

Lemma onChange_twice {Diff} env env' (w : World Diff) :
  step env' (step env w onChange) onChange = step env w onChange.
Proof. cbn [step]. by rewrite cancel_idempotent. Qed.

Lemma onChange_fields {Diff} env (w : World Diff) :
  calls (step env w onChange) = calls w
  /\ sources (step env w onChange) = sources w
  /\ previousResults (this (step env w onChange)) = previousResults (this w)
  /\ timer (step env w onChange) = true.
Proof.
  cbn -[cancel].
  by destruct (cancel_fields w) as (_ & -> & _ & -> & _ & -> & _).
Qed.

(** X12: a burst of changes leaves the state one change leaves, and the timer
    running out after it sends one request: the one a single change would
    have led to. *)
Theorem burst_of_changes_is_one_change {Diff} env (envs : list Env)
    (w : World Diff) :
  run (step env w onChange) (map (fun e => (e, onChange)) envs)
  = step env w onChange
  /\ calls (run (step env w onChange)
             (map (fun e => (e, onChange)) envs ++ [(env, timerFires)]))
     = calls w ++
       match (if enabled env then getDocument env else None) with
       | Some doc =>
           [request (choose_request (hasSemanticTokensEdits doc)
                       (previousResults (this w)) (sources w))]
       | None => []
       end.
Proof.
  assert (run (step env w onChange) (map (fun e => (e, onChange)) envs)
          = step env w onChange) as Hrun.
  { induction envs as [|e envs IH]; [done|].
    cbn [map run fold_left fst snd].
    rewrite onChange_twice. apply IH. }
  split; [done|].
  unfold run in *. rewrite fold_left_app, Hrun. cbn [fold_left fst snd].
  destruct (onChange_fields env w) as (Hc & Hs & Hp & Ht).
  cbn [step] in *. rewrite Ht, doHighlight_calls. cbn -[cancel].
  cbn -[cancel] in Hc, Hs, Hp. by rewrite Hc, Hs, Hp.
Qed.

(** What an enabled [doHighlight] leaves, field by field. *)
Lemma doHighlight_enabled {Diff} env forced (w : World Diff) doc :
  enabled env = true ->
  getDocument env = Some doc ->
  doHighlight env forced w
  = {| this := {| tokenSource := Some (sources w);
                  _highlights := _highlights (this w);
                  previousResults := previousResults (this w) |};
       timer := timer w;
       cancelled := match tokenSource (this w) with
                    | Some t => {[ t ]} ∪ cancelled w
                    | None => cancelled w
                    end;
       sources := S (sources w);
       suspended :=
         <[ sources w :=
              AwaitProvider forced (getLegend doc) (previousResults (this w))
                (textDocument_version doc) ]> (suspended w);
       calls := calls w ++
         [request (choose_request (hasSemanticTokensEdits doc)
                     (previousResults (this w)) (sources w))];
       arrays := arrays w |}.
Proof.
  intros Hen Hdoc. unfold doHighlight, requestHighlights_begin.
  rewrite Hen, Hdoc. by destruct w as [[[t|] hl pr] tm cn sr sp cl ar].
Qed.

(** X13: a new cycle supersedes the request in flight: once a forced refresh or
    the timer has started a request, the response to the request that was
    in flight before is dropped when it comes. *)
Theorem new_cycle_supersedes {Diff} env env' (w : World Diff) token result :
  enabled env = true ->
  tokenSource (this w) = Some token ->
  timer w = true ->
  untouched (step env w forceHighlight)
    (step env' (step env w forceHighlight) (providerResponds token result))
  /\ untouched (step env w timerFires)
       (step env' (step env w timerFires) (providerResponds token result)).
Proof.
  intros Hen Hts Ht. destruct (enabled_document _ Hen) as [doc Hdoc].
  split; apply providerResponds_discarded; left; cbn [step]; rewrite ?Ht;
    rewrite (doHighlight_enabled _ _ _ doc Hen Hdoc); cbn; rewrite Hts;
    set_solver.
Qed.

Lemma new_cycle_supersedes_witness :
  untouched (step Examples.env_on Examples.busy forceHighlight)
    (step Examples.env_on (step Examples.env_on Examples.busy forceHighlight)
       (providerResponds 1
          (Some (SemanticTokens (Some "r2"%string) [0;0;4;1;0]))))
  /\ untouched (step Examples.env_on Examples.busy timerFires)
       (step Examples.env_on (step Examples.env_on Examples.busy timerFires)
          (providerResponds 1
             (Some (SemanticTokens (Some "r2"%string) [0;0;4;1;0])))).
Proof.
  apply (new_cycle_supersedes Examples.env_on Examples.env_on Examples.busy
           1%nat (Some (SemanticTokens (Some "r2"%string) [0;0;4;1;0])));
    by vm_compute.
Defined.

(** X14: after [dispose] the response to the request that was in flight is
    dropped when it comes: the snapshot stays empty and the cache stays
    cleared. *)
Theorem dispose_drops_the_late_response {Diff} env env' (w : World Diff)
    token result :
  tokenSource (this w) = Some token ->
  highlights
    (this (step env' (step env w dispose) (providerResponds token result)))
  = Some []
  /\ previousResults
       (this (step env' (step env w dispose) (providerResponds token result)))
     = None
  /\ calls (step env' (step env w dispose) (providerResponds token result))
     = calls w.
Proof.
  intros Hts.
  assert (token ∈ cancelled (step env w dispose)) as Hin.
  { cbn [step]. rewrite cancel_cancelled. cbn. rewrite Hts. cbn. set_solver. }
  destruct (providerResponds_discarded env' (step env w dispose) token result
              (or_introl Hin)) as (Hp & _ & Hh & Hc).
  unfold highlights. rewrite Hp, Hh, Hc. cbn [step].
  set (w1 := set_this _ _).
  by destruct (cancel_fields w1) as (_ & _ & _ & -> & -> & -> & _).
Qed.

Lemma dispose_drops_the_late_response_witness :
  highlights
    (this (step Examples.env_on (step Examples.env_on Examples.busy dispose)
             (providerResponds 1
                (Some (SemanticTokens (Some "r2"%string) [0;0;4;1;0])))))
  = Some []
  /\ previousResults
       (this (step Examples.env_on (step Examples.env_on Examples.busy dispose)
                (providerResponds 1
                   (Some (SemanticTokens (Some "r2"%string) [0;0;4;1;0])))))
     = None
  /\ calls (step Examples.env_on (step Examples.env_on Examples.busy dispose)
              (providerResponds 1
                 (Some (SemanticTokens (Some "r2"%string) [0;0;4;1;0]))))
     = calls Examples.busy.
Proof.
  apply (dispose_drops_the_late_response Examples.env_on Examples.env_on
           Examples.busy 1%nat
           (Some (SemanticTokens (Some "r2"%string) [0;0;4;1;0]))).
  by vm_compute.
Defined.

(** *** Responses that are taken *)

(** What a response leaves when its request is not cancelled and lines
    118-130 give it the array [array], with the numbers [ts] in it. *)
Lemma response_taken {Diff} env (w : World Diff) token forced legend
    previousResult v result array ts :
  suspended w !! token
  = Some (AwaitProvider forced (Some legend) previousResult v) ->
  token ∉ cancelled w ->
  tokens_of token previousResult result (set_suspended (delete token) w)
  = (set_arrays (insert array ts) (set_suspended (delete token) w),
     Return (Some array)) ->
  step env w (providerResponds token (Some result))
  = match Decoder.decode legend ts with
    | Return items =>
        set_suspended (insert token (AwaitDiff forced))
          (call (diffHighlights items)
             (set_this (set_highlights items)
                (set_this
                   (set_previousResults
                      (Some {| version := v;
                               resultId := result_resultId result;
                               tokens := Some array |}))
                   (set_arrays (insert array ts)
                      (set_suspended (delete token) w)))))
    | Throw e =>
        fail forced e
          (set_this
             (set_previousResults
                (Some {| version := v;
                         resultId := result_resultId result;
                         tokens := Some array |}))
             (set_arrays (insert array ts)
                (set_suspended (delete token) w)))
    end.
Proof.
  intros Hs Hc Ht. cbn [step]. rewrite Hs.
  unfold doHighlight_items, requestHighlights_resume, isCancellationRequested.
  cbn [cancelled set_suspended]. rewrite bool_decide_eq_false_2 by done.
  rewrite Ht. cbv zeta. cbn [fmap option_fmap option_map].
  rewrite content_inserted, decode_with_legend.
  by destruct (Decoder.decode legend ts).
Qed.

Lemma tokens_of_delta {Diff} token r array rid edits (w : World Diff) :
  tokens r = Some array ->
  tokens_of token (Some r) (SemanticTokensDelta rid edits)
    (set_suspended (delete token) w)
  = (set_arrays
       (insert array (DeltaApplier.apply_edits (content w array) edits))
       (set_suspended (delete token) w),
     Return (Some array)).
Proof. intros Hr. cbn [tokens_of]. by rewrite Hr. Qed.

Lemma delta_response_cache {Diff} env (w : World Diff) token forced legend
    r array v rid edits :
  suspended w !! token = Some (AwaitProvider forced (Some legend) (Some r) v) ->
  token ∉ cancelled w ->
  tokens r = Some array ->
  let w' := step env w (providerResponds token
                          (Some (SemanticTokensDelta rid edits))) in
  previousResults (this w')
  = Some {| version := v; resultId := rid; tokens := Some array |}
  /\ arrays w'
     = <[ array := DeltaApplier.apply_edits (content w array) edits ]>
         (arrays w).
Proof.
  intros Hs Hc Hr w'. subst w'.
  rewrite (response_taken env w token forced legend (Some r) v
             (SemanticTokensDelta rid edits) array _ Hs Hc
             (tokens_of_delta token r array rid edits w Hr)).
  by destruct (Decoder.decode legend _).
Qed.

(** X15: a delta response is spliced into the array of the previous
    result that the request holds, as that array is when the response
    comes, and where it is: the cache then holds this same array under
    the new result id and the version of the document at the time of the
    request. When the edited array decodes, the snapshot is its decoding
    and the items go to the diff collaborator; when [Range.create]
    refuses a range, the snapshot stays and the error is logged, or
    rejects the promise of a forced refresh. *)
Theorem delta_response_edits_the_cache {Diff} env (w : World Diff) token
    forced legend r array v rid edits :
  suspended w !! token = Some (AwaitProvider forced (Some legend) (Some r) v) ->
  token ∉ cancelled w ->
  tokens r = Some array ->
  let edited := DeltaApplier.apply_edits (content w array) edits in
  let w' := step env w (providerResponds token
                          (Some (SemanticTokensDelta rid edits))) in
  previousResults (this w')
  = Some {| version := v; resultId := rid; tokens := Some array |}
  /\ arrays w' = <[ array := edited ]> (arrays w)
  /\ match Decoder.decode legend edited with
     | Return items =>
         _highlights (this w') = Some items
         /\ calls w' = calls w ++ [diffHighlights items]
     | Throw e =>
         _highlights (this w') = _highlights (this w)
         /\ calls w'
            = calls w ++ [if forced then rejected e else logError e]
     end.
Proof.
  intros Hs Hc Hr edited w'. subst w'.
  rewrite (response_taken env w token forced legend (Some r) v
             (SemanticTokensDelta rid edits) array edited Hs Hc
             (tokens_of_delta token r array rid edits w Hr)).
  fold edited. destruct (Decoder.decode legend edited); [done|].
  by destruct forced.
Qed.

Lemma delta_response_edits_the_cache_witness :
  previousResults
    (this (step Examples.env_on Examples.busy
             (providerResponds 1
                (Some (SemanticTokensDelta (Some "r2"%string)
                   [ {| DeltaApplier.start := 0; DeltaApplier.deleteCount := 5;
                        DeltaApplier.data := [0;0;4;1;0] |} ])))))
  = Some {| version := 1; resultId := Some "r2"%string;
            tokens := Some 0%nat |}
  /\ arrays
       (step Examples.env_on Examples.busy
          (providerResponds 1
             (Some (SemanticTokensDelta (Some "r2"%string)
                [ {| DeltaApplier.start := 0; DeltaApplier.deleteCount := 5;
                     DeltaApplier.data := [0;0;4;1;0] |} ]))))
     = <[ 0%nat :=
            DeltaApplier.apply_edits (content Examples.busy 0)
              [ {| DeltaApplier.start := 0; DeltaApplier.deleteCount := 5;
                   DeltaApplier.data := [0;0;4;1;0] |} ] ]>
         (arrays Examples.busy)
  /\ match
       Decoder.decode Examples.legend_vf
         (DeltaApplier.apply_edits (content Examples.busy 0)
            [ {| DeltaApplier.start := 0; DeltaApplier.deleteCount := 5;
                 DeltaApplier.data := [0;0;4;1;0] |} ])
     with
     | Return items =>
         _highlights
           (this (step Examples.env_on Examples.busy
                    (providerResponds 1
                       (Some (SemanticTokensDelta (Some "r2"%string)
                          [ {| DeltaApplier.start := 0;
                               DeltaApplier.deleteCount := 5;
                               DeltaApplier.data := [0;0;4;1;0] |} ])))))
         = Some items
         /\ calls (step Examples.env_on Examples.busy
                     (providerResponds 1
                        (Some (SemanticTokensDelta (Some "r2"%string)
                           [ {| DeltaApplier.start := 0;
                                DeltaApplier.deleteCount := 5;
                                DeltaApplier.data := [0;0;4;1;0] |} ]))))
            = calls Examples.busy ++ [diffHighlights items]
     | Throw e =>
         _highlights
           (this (step Examples.env_on Examples.busy
                    (providerResponds 1
                       (Some (SemanticTokensDelta (Some "r2"%string)
                          [ {| DeltaApplier.start := 0;
                               DeltaApplier.deleteCount := 5;
                               DeltaApplier.data := [0;0;4;1;0] |} ])))))
         = _highlights (this Examples.busy)
         /\ calls (step Examples.env_on Examples.busy
                     (providerResponds 1
                        (Some (SemanticTokensDelta (Some "r2"%string)
                           [ {| DeltaApplier.start := 0;
                                DeltaApplier.deleteCount := 5;
                                DeltaApplier.data := [0;0;4;1;0] |} ]))))
            = calls Examples.busy ++ [logError e]
     end.
Proof.
  apply (delta_response_edits_the_cache Examples.env_on Examples.busy 1%nat
           false Examples.legend_vf
           {| version := 1; resultId := Some "r1"%string;
              tokens := Some 0%nat |}
           0%nat 1 (Some "r2"%string)
           [ {| DeltaApplier.start := 0; DeltaApplier.deleteCount := 5;
                DeltaApplier.data := [0;0;4;1;0] |} ]).
  - by vm_compute.
  - by vm_compute.
  - reflexivity.
Defined.

Lemma tokens_of_full {Diff} token previousResult rid data (w : World Diff) :
  tokens_of token previousResult (SemanticTokens rid data)
    (set_suspended (delete token) w)
  = (set_arrays (insert token data) (set_suspended (delete token) w),
     Return (Some token)).
Proof. done. Qed.

(** X16: a delta response whose one edit deletes all of the base array,
    as long as that array is when the response comes, has the effect of
    a full response with the same data, but for the array that holds the
    numbers: the cached numbers, result id and version, the snapshot and
    the calls are the same. *)
Theorem delta_replacing_all_is_full {Diff} env (w : World Diff) token
    forced legend r array v rid d :
  suspended w !! token = Some (AwaitProvider forced (Some legend) (Some r) v) ->
  token ∉ cancelled w ->
  tokens r = Some array ->
  let delta :=
    step env w
      (providerResponds token
         (Some (SemanticTokensDelta rid
            [ {| DeltaApplier.start := 0;
                 DeltaApplier.deleteCount :=
                   Z.of_nat (List.length (content w array));
                 DeltaApplier.data := d |} ]))) in
  let full :=
    step env w (providerResponds token (Some (SemanticTokens rid d))) in
  cached_tokens delta = Some d
  /\ cached_tokens full = Some d
  /\ resultId <$> previousResults (this delta)
     = resultId <$> previousResults (this full)
  /\ previousVersion (this delta) = previousVersion (this full)
  /\ _highlights (this delta) = _highlights (this full)
  /\ calls delta = calls full.
Proof.
  intros Hs Hc Hr delta full. subst delta full.
  rewrite (response_taken env w token forced legend (Some r) v
             (SemanticTokens rid d) token d Hs Hc
             (tokens_of_full token (Some r) rid d w)).
  rewrite (response_taken env w token forced legend (Some r) v
             (SemanticTokensDelta rid _) array _ Hs Hc
             (tokens_of_delta token r array rid _ w Hr)).
  cbn [DeltaApplier.apply_edits fold_left]. rewrite apply_edit_replace_all.
  unfold cached_tokens, previousVersion.
  destruct (Decoder.decode legend d); [|destruct forced]; cbn;
    by rewrite !lookup_insert_eq.
Qed.

Lemma delta_replacing_all_is_full_witness :
  cached_tokens
    (step Examples.env_on Examples.busy
       (providerResponds 1
          (Some (SemanticTokensDelta (Some "r2"%string)
             [ {| DeltaApplier.start := 0;
                  DeltaApplier.deleteCount :=
                    Z.of_nat (List.length (content Examples.busy 0));
                  DeltaApplier.data := [0;0;4;1;0] |} ]))))
  = Some [0;0;4;1;0]
  /\ cached_tokens
       (step Examples.env_on Examples.busy
          (providerResponds 1
             (Some (SemanticTokens (Some "r2"%string) [0;0;4;1;0]))))
     = Some [0;0;4;1;0]
  /\ resultId <$>
       previousResults
         (this (step Examples.env_on Examples.busy
                  (providerResponds 1
                     (Some (SemanticTokensDelta (Some "r2"%string)
                        [ {| DeltaApplier.start := 0;
                             DeltaApplier.deleteCount :=
                               Z.of_nat
                                 (List.length (content Examples.busy 0));
                             DeltaApplier.data := [0;0;4;1;0] |} ])))))
     = resultId <$>
         previousResults
           (this (step Examples.env_on Examples.busy
                    (providerResponds 1
                       (Some (SemanticTokens (Some "r2"%string)
                                [0;0;4;1;0])))))
  /\ previousVersion
       (this (step Examples.env_on Examples.busy
                (providerResponds 1
                   (Some (SemanticTokensDelta (Some "r2"%string)
                      [ {| DeltaApplier.start := 0;
                           DeltaApplier.deleteCount :=
                             Z.of_nat (List.length (content Examples.busy 0));
                           DeltaApplier.data := [0;0;4;1;0] |} ])))))
     = previousVersion
         (this (step Examples.env_on Examples.busy
                  (providerResponds 1
                     (Some (SemanticTokens (Some "r2"%string) [0;0;4;1;0])))))
  /\ _highlights
       (this (step Examples.env_on Examples.busy
                (providerResponds 1
                   (Some (SemanticTokensDelta (Some "r2"%string)
                      [ {| DeltaApplier.start := 0;
                           DeltaApplier.deleteCount :=
                             Z.of_nat (List.length (content Examples.busy 0));
                           DeltaApplier.data := [0;0;4;1;0] |} ])))))
     = _highlights
         (this (step Examples.env_on Examples.busy
                  (providerResponds 1
                     (Some (SemanticTokens (Some "r2"%string) [0;0;4;1;0])))))
  /\ calls
       (step Examples.env_on Examples.busy
          (providerResponds 1
             (Some (SemanticTokensDelta (Some "r2"%string)
                [ {| DeltaApplier.start := 0;
                     DeltaApplier.deleteCount :=
                       Z.of_nat (List.length (content Examples.busy 0));
                     DeltaApplier.data := [0;0;4;1;0] |} ]))))
     = calls
         (step Examples.env_on Examples.busy
            (providerResponds 1
               (Some (SemanticTokens (Some "r2"%string) [0;0;4;1;0])))).
Proof.
  apply (delta_replacing_all_is_full Examples.env_on Examples.busy 1%nat
           false Examples.legend_vf
           {| version := 1; resultId := Some "r1"%string;
              tokens := Some 0%nat |}
           0%nat 1 (Some "r2"%string) [0;0;4;1;0]).
  - by vm_compute.
  - by vm_compute.
  - reflexivity.
Defined.

(** X17: a delta response to a request that started from no previous result is
    a [TypeError]: the cache and the snapshot stay as they are, nothing goes
    to the diff collaborator, and the error is logged, or rejects the
    promise of a forced refresh. *)
Theorem delta_without_base_throws {Diff} env (w : World Diff) token forced
    legend v rid edits :
  suspended w !! token = Some (AwaitProvider forced legend None v) ->
  token ∉ cancelled w ->
  let w' := step env w (providerResponds token
                          (Some (SemanticTokensDelta rid edits))) in
  this w' = this w
  /\ arrays w' = arrays w
  /\ suspended w' = delete token (suspended w)
  /\ calls w'
     = calls w ++ [if forced then rejected TypeError else logError TypeError].
Proof.
  intros Hs Hc w'. subst w'. cbn [step]. rewrite Hs.
  unfold doHighlight_items, requestHighlights_resume, isCancellationRequested.
  cbn -[decode_with]. rewrite bool_decide_eq_false_2 by done.
  by destruct forced.
Qed.

Lemma delta_without_base_throws_witness :
  this (step Examples.env_on Examples.requesting
          (providerResponds 0 (Some (SemanticTokensDelta None []))))
  = this Examples.requesting
  /\ arrays (step Examples.env_on Examples.requesting
               (providerResponds 0 (Some (SemanticTokensDelta None []))))
     = arrays Examples.requesting
  /\ suspended (step Examples.env_on Examples.requesting
                  (providerResponds 0 (Some (SemanticTokensDelta None []))))
     = delete 0%nat (suspended Examples.requesting)
  /\ calls (step Examples.env_on Examples.requesting
              (providerResponds 0 (Some (SemanticTokensDelta None []))))
     = calls Examples.requesting ++ [logError TypeError].
Proof.
  apply (delta_without_base_throws Examples.env_on Examples.requesting 0%nat
           false (Some Examples.legend_vf) 1 None []).
  - by vm_compute.
  - by vm_compute.
Defined.

(** *** The second await *)

(** X18: a change that comes while the diff is awaited by the activation
    whose source [tokenSource] still holds keeps the change set from being
    applied, and takes nothing back: the cache and the snapshot that the
    response wrote stay. *)
Theorem change_during_diff_skips_apply {Diff} env env' (w : World Diff)
    token forced diff :
  suspended w !! token = Some (AwaitDiff forced) ->
  tokenSource (this w) = Some token ->
  untouched w (step env' (step env w onChange) (diffResponds token diff)).
Proof.
  intros Hs Hts. cbn [step]. cbn -[cancel].
  destruct (cancel_fields w) as (_ & _ & -> & Hc & Hh & Hp & _). rewrite Hs.
  unfold doHighlight_diff, isCancellationRequested.
  rewrite bool_decide_eq_true_2.
  - repeat split; cbn -[cancel]; try done. apply cancel_arrays.
  - cbn -[cancel]. rewrite cancel_cancelled, Hts. cbn. set_solver.
Qed.

Lemma change_during_diff_skips_apply_witness :
  untouched
    (step Examples.env_on Examples.requesting
       (providerResponds 0
          (Some (SemanticTokens (Some "r1"%string) [0;0;3;0;0]))))
    (step Examples.env_on
       (step Examples.env_on
          (step Examples.env_on Examples.requesting
             (providerResponds 0
                (Some (SemanticTokens (Some "r1"%string) [0;0;3;0;0]))))
          onChange)
       (diffResponds 0 (Some tt))).
Proof.
  apply (change_during_diff_skips_apply Examples.env_on Examples.env_on
           (step Examples.env_on Examples.requesting
              (providerResponds 0
                 (Some (SemanticTokens (Some "r1"%string) [0;0;3;0;0]))))
           0%nat false (Some tt)).
  - by vm_compute.
  - by vm_compute.
Defined.

(** X19: the activation that comes back from the diff collaborator clears
    [tokenSource] whichever request it belongs to by then: a request
    started in the meantime is no longer reached by [cancel], so that a
    change that follows leaves it in flight and not cancelled. *)
Theorem late_diff_forgets_the_request_in_flight {Diff} env env'
    (w : World Diff) older token forced forced' legend previousResult v diff :
  suspended w !! older = Some (AwaitDiff forced) ->
  suspended w !! token
  = Some (AwaitProvider forced' legend previousResult v) ->
  token ∉ cancelled w ->
  tokenSource (this (step env w (diffResponds older diff))) = None
  /\ (token
      ∉ cancelled (step env' (step env w (diffResponds older diff)) onChange))
  /\ suspended (step env' (step env w (diffResponds older diff)) onChange)
       !! token
     = Some (AwaitProvider forced' legend previousResult v).
Proof.
  intros Ho Ht Hc.
  assert (older <> token) as Hne by (intros ->; congruence).
  cbn [step]. rewrite Ho. unfold doHighlight_diff, isCancellationRequested.
  destruct w as [[ts hl pr] tm cn sr sp cl ar]. cbn in *.
  case_bool_decide; [|destruct diff]; cbn; by rewrite lookup_delete_ne.
Qed.

Lemma late_diff_forgets_the_request_in_flight_witness :
  tokenSource (this Examples.overlapping) = Some 1%nat
  /\ tokenSource
       (this (step Examples.env_on Examples.overlapping
                (diffResponds 0 (Some tt)))) = None
  /\ (1%nat ∉ cancelled
       (step Examples.env_on
          (step Examples.env_on Examples.overlapping (diffResponds 0 (Some tt)))
          onChange))
  /\ suspended
       (step Examples.env_on
          (step Examples.env_on Examples.overlapping (diffResponds 0 (Some tt)))
          onChange) !! 1%nat
     = Some (AwaitProvider true (Some Examples.legend_vf)
               (Some {| version := 1; resultId := Some "r1"%string;
                        tokens := Some 0%nat |}) 1).
Proof.
  split; [by vm_compute|].
  apply (late_diff_forgets_the_request_in_flight Examples.env_on
           Examples.env_on Examples.overlapping 0%nat 1%nat false true
           (Some Examples.legend_vf)
           (Some {| version := 1; resultId := Some "r1"%string;
                    tokens := Some 0%nat |}) 1 (Some tt)).
  - by vm_compute.
  - by vm_compute.
  - by vm_compute.
Defined.

End OrchestratorMore.

(** ** What holds in every state reached from the constructor *)

Section Reachable.

Import Orchestrator Invariant.

Lemma with_tokens_mono {Diff} (w w' : World Diff) r :
  (forall a, is_Some (arrays w !! a) -> is_Some (arrays w' !! a)) ->
  with_tokens w r -> with_tokens w' r.
Proof.
  intros Ha Hw r' Hr. destruct (Hw r' Hr) as (a & Ht & Hs).
  exists a. split; [done|by apply Ha].
Qed.

Lemma with_tokens_eq {Diff} (w w' : World Diff) r :
  arrays w' = arrays w -> with_tokens w r -> with_tokens w' r.
Proof. intros Ha. apply with_tokens_mono. intros a. by rewrite Ha. Qed.

Lemma inv_intro {Diff} (w : World Diff) :
  (forall t, tokenSource (this w) = Some t -> (t < sources w)%nat) ->
  (forall t, tokenSource (this w) = Some t -> t ∉ cancelled w) ->
  (forall t, t ∈ cancelled w -> (t < sources w)%nat) ->
  with_tokens w (previousResults (this w)) ->
  (forall t f l pr v,
     suspended w !! t = Some (AwaitProvider f l pr v) ->
     is_Some l /\ with_tokens w pr /\ arrays w !! t = None
     /\ (t < sources w)%nat) ->
  (forall a, is_Some (arrays w !! a) -> (a < sources w)%nat) ->
  inv w.
Proof.
  intros H1 H1' H2 H3 H4 H5. unfold inv. split; [|done].
  intros t Ht. split; [by apply H1|by apply H1'].
Qed.

Lemma inv_constructor {Diff} : inv (constructor (Diff := Diff)).
Proof.
  apply inv_intro; cbn.
  - done.
  - done.
  - intros t Ht. set_solver.
  - by intros r.
  - intros t f l pr v Ht. by rewrite lookup_empty in Ht.
  - intros a [ts Ha]. by rewrite lookup_empty in Ha.
Qed.

(** Steps that write neither the cache nor an array, cancel nothing and
    start no request. *)
Lemma inv_frame {Diff} (w w' : World Diff) :
  inv w ->
  tokenSource (this w') = None
    \/ tokenSource (this w') = tokenSource (this w) ->
  cancelled w' = cancelled w ->
  sources w' = sources w ->
  previousResults (this w') = previousResults (this w) ->
  arrays w' = arrays w ->
  (forall t f l pr v,
     suspended w' !! t = Some (AwaitProvider f l pr v) ->
     suspended w !! t = Some (AwaitProvider f l pr v)) ->
  inv w'.
Proof.
  intros (I1 & I2 & I3 & I4 & I5) Hts Hc Hs Hp Ha Hsp.
  apply inv_intro; rewrite ?Hc, ?Hs, ?Hp, ?Ha.
  - intros t Ht. destruct Hts as [Hts|Hts]; rewrite Hts in Ht; [done|].
    by apply I1.
  - intros t Ht. destruct Hts as [Hts|Hts]; rewrite Hts in Ht; [done|].
    by apply I1.
  - done.
  - by apply (with_tokens_eq w).
  - intros t f l pr v Ht.
    destruct (I4 t f l pr v (Hsp _ _ _ _ _ Ht)) as (Hl & Hw & Hn & Hlt).
    split; [done|]. split; [by apply (with_tokens_eq w)|done].
  - done.
Qed.

Lemma inv_cancel {Diff} (w : World Diff) : inv w -> inv (cancel w).
Proof.
  intros (I1 & I2 & I3 & I4 & I5).
  destruct (cancel_fields w) as (_ & Hs & Hsp & _ & Hh & Hp & Hts).
  pose proof (cancel_arrays w) as Ha.
  apply inv_intro; rewrite ?Hs, ?Hsp, ?Hp, ?Hts, ?Ha, ?cancel_cancelled.
  - done.
  - done.
  - intros t Ht. destruct (tokenSource (this w)) as [t'|] eqn:E; cbn in Ht.
    + apply elem_of_union in Ht as [Ht|Ht]; [|by apply I2].
      apply elem_of_singleton in Ht. subst t. by apply I1.
    + rewrite (left_id_L ∅ (∪)) in Ht. by apply I2.
  - by apply (with_tokens_eq w).
  - intros t f l pr v Ht.
    destruct (I4 t f l pr v Ht) as (Hl & Hw & Hn & Hlt).
    split; [done|]. split; [by apply (with_tokens_eq w)|done].
  - done.
Qed.

Lemma inv_doHighlight {Diff} env forced (w : World Diff) :
  inv w -> inv (doHighlight env forced w).
Proof.
  intros Hinv. destruct (enabled env) eqn:Hen.
  2: { unfold doHighlight. by rewrite Hen. }
  apply enabled_true_iff in Hen as Hen'.
  destruct Hen' as (_ & doc & Hdoc & _ & Hl & _).
  rewrite (doHighlight_enabled _ _ _ doc Hen Hdoc).
  destruct Hinv as (I1 & I2 & I3 & I4 & I5).
  apply inv_intro.
  - cbn. intros t [= <-]. lia.
  - cbn. intros t [= <-]. destruct (tokenSource (this w)) as [t'|] eqn:E.
    + intros [Hin|Hin]%elem_of_union.
      * apply elem_of_singleton in Hin. destruct (I1 _ eq_refl). lia.
      * specialize (I2 _ Hin). lia.
    + intros Hin. specialize (I2 _ Hin). lia.
  - cbn. intros t Ht. destruct (tokenSource (this w)) as [t'|] eqn:E.
    + apply elem_of_union in Ht as [Hin|Hin].
      * apply elem_of_singleton in Hin. destruct (I1 _ eq_refl). lia.
      * specialize (I2 _ Hin). lia.
    + specialize (I2 _ Ht). lia.
  - by apply (with_tokens_eq w).
  - cbn [suspended arrays sources]. intros t f l pr v Ht.
    destruct (decide (sources w = t)) as [<-|Hne].
    + rewrite lookup_insert_eq in Ht. injection Ht as _ <- <- _.
      split; [done|]. split; [by apply (with_tokens_eq w)|].
      split; [|lia]. destruct (arrays w !! sources w) as [ts|] eqn:E; [|done].
      assert (sources w < sources w)%nat; [|lia]. apply I5. by rewrite E.
    + rewrite lookup_insert_ne in Ht by done.
      destruct (I4 t f l pr v Ht) as (Hl' & Hw & Hn & Hlt).
      split; [done|]. split; [by apply (with_tokens_eq w)|].
      split; [done|lia].
  - cbn [arrays sources]. intros a Ha. specialize (I5 a Ha). lia.
Qed.

Lemma lookup_delete_AwaitProvider (m : gmap nat Suspended) token t f l pr v :
  delete token m !! t = Some (AwaitProvider f l pr v) ->
  t <> token /\ m !! t = Some (AwaitProvider f l pr v).
Proof.
  destruct (decide (token = t)) as [->|Hne].
  - by rewrite lookup_delete_eq.
  - by rewrite lookup_delete_ne.
Qed.

Lemma lookup_AwaitDiff_AwaitProvider (m : gmap nat Suspended) token forced t
    f l pr v :
  <[ token := AwaitDiff forced ]> (delete token m) !! t
  = Some (AwaitProvider f l pr v) ->
  t <> token /\ m !! t = Some (AwaitProvider f l pr v).
Proof.
  destruct (decide (token = t)) as [->|Hne].
  - by rewrite lookup_insert_eq.
  - rewrite lookup_insert_ne by done. apply lookup_delete_AwaitProvider.
Qed.

(** A response that writes the cache: the array is that of the request or
    one already in the store. *)
Lemma inv_written {Diff} (w w' : World Diff) token forced l pr v array ts r :
  inv w ->
  suspended w !! token = Some (AwaitProvider forced l pr v) ->
  array = token \/ is_Some (arrays w !! array) ->
  tokenSource (this w') = tokenSource (this w) ->
  cancelled w' = cancelled w ->
  sources w' = sources w ->
  previousResults (this w') = Some r ->
  tokens r = Some array ->
  arrays w' = <[ array := ts ]> (arrays w) ->
  (forall t f l pr v,
     suspended w' !! t = Some (AwaitProvider f l pr v) ->
     t <> token /\ suspended w !! t = Some (AwaitProvider f l pr v)) ->
  inv w'.
Proof.
  intros (I1 & I2 & I3 & I4 & I5) Hs Harray Hts Hc Hsr Hp Hr Ha Hsp.
  assert (forall a, is_Some (arrays w !! a) -> is_Some (arrays w' !! a))
    as Hgrow.
  { intros a Hsome. rewrite Ha. destruct (decide (array = a)) as [->|Hne].
    - by rewrite lookup_insert_eq.
    - by rewrite lookup_insert_ne. }
  apply inv_intro; rewrite ?Hts, ?Hc, ?Hsr.
  - intros t Ht. by apply I1.
  - intros t Ht. by apply I1.
  - done.
  - rewrite Hp. intros r' [= <-]. exists array. split; [done|].
    by rewrite Ha, lookup_insert_eq.
  - intros t f l' pr' v' Ht. destruct (Hsp _ _ _ _ _ Ht) as [Hne Ht'].
    destruct (I4 _ _ _ _ _ Ht') as (Hl & Hw & Hn & Hlt).
    split; [done|]. split; [by apply (with_tokens_mono w)|].
    split; [|done]. rewrite Ha, lookup_insert_ne; [done|].
    intros ->. destruct Harray as [->|Hsome]; [done|].
    rewrite Hn in Hsome. by destruct Hsome.
  - intros a. rewrite Ha. destruct (decide (array = a)) as [<-|Hne].
    + intros _. destruct Harray as [->|Hsome]; [|by apply I5].
      by destruct (I4 _ _ _ _ _ Hs) as (_ & _ & _ & Hlt).
    + rewrite lookup_insert_ne by done. apply I5.
Qed.

Lemma inv_taken {Diff} env (w : World Diff) token forced legend pr v result
    array ts :
  inv w ->
  suspended w !! token = Some (AwaitProvider forced (Some legend) pr v) ->
  token ∉ cancelled w ->
  array = token \/ is_Some (arrays w !! array) ->
  tokens_of token pr result (set_suspended (delete token) w)
  = (set_arrays (insert array ts) (set_suspended (delete token) w),
     Return (Some array)) ->
  inv (step env w (providerResponds token (Some result))).
Proof.
  intros Hinv Hs Hc Harray Ht.
  rewrite (response_taken env w token forced legend pr v result array ts
             Hs Hc Ht).
  destruct (Decoder.decode legend ts) as [items|e].
  - apply (inv_written w _ token forced (Some legend) pr v array ts
             {| version := v; resultId := result_resultId result;
                tokens := Some array |}); try done.
    cbn. intros t f l pr' v'. apply lookup_AwaitDiff_AwaitProvider.
  - apply (inv_written w _ token forced (Some legend) pr v array ts
             {| version := v; resultId := result_resultId result;
                tokens := Some array |}); try done.
    cbn. intros t f l pr' v'. apply lookup_delete_AwaitProvider.
Qed.

Lemma inv_providerResponds {Diff} env (w : World Diff) token result :
  inv w -> inv (step env w (providerResponds token result)).
Proof.
  intros Hinv.
  destruct (suspended w !! token) as [[forced l pr v|forced]|] eqn:Hs.
  2,3: cbn [step]; by rewrite Hs.
  destruct (decide (token ∈ cancelled w)) as [Hc|Hc].
  { cbn [step]. rewrite Hs.
    unfold doHighlight_items. rewrite resume_discarded by (by left).
    apply (inv_frame w); try done; [by right|].
    cbn. intros t f l' pr' v' Ht.
    by apply lookup_delete_AwaitProvider in Ht as [_ ?]. }
  destruct result as [result|].
  2: { cbn [step]. rewrite Hs.
       unfold doHighlight_items. rewrite resume_discarded by (by right).
       apply (inv_frame w); try done; [by right|].
       cbn. intros t f l' pr' v' Ht.
       by apply lookup_delete_AwaitProvider in Ht as [_ ?]. }
  pose proof Hinv as (_ & _ & _ & I4 & _).
  destruct (I4 _ _ _ _ _ Hs) as ([legend ->] & Hpr & _).
  destruct result as [rid data|rid edits].
  - apply (inv_taken env w token forced legend pr v _ token data Hinv Hs Hc);
      [by left|apply tokens_of_full].
  - destruct pr as [r|].
    + destruct (Hpr r eq_refl) as (array & Hr & Hsome).
      apply (inv_taken env w token forced legend (Some r) v _ array
               (DeltaApplier.apply_edits (content w array) edits) Hinv Hs Hc);
        [by right|by apply tokens_of_delta].
    + cbn [step]. rewrite Hs.
      unfold doHighlight_items, requestHighlights_resume,
        isCancellationRequested.
      cbn -[decode_with]. rewrite bool_decide_eq_false_2 by done.
      apply (inv_frame w); try done; try by destruct forced.
      * right. by destruct forced.
      * intros t f l' pr' v' Ht. destruct forced; cbn in Ht;
          by apply lookup_delete_AwaitProvider in Ht as [_ ?].
Qed.

Lemma inv_diffResponds {Diff} env (w : World Diff) token diff :
  inv w -> inv (step env w (diffResponds token diff)).
Proof.
  intros Hinv. cbn [step].
  destruct (suspended w !! token) as [[forced l pr v|forced]|]; [done| |done].
  unfold doHighlight_diff.
  apply (inv_frame w); try done;
    try by (destruct (isCancellationRequested _ token), diff).
  - left. by destruct (isCancellationRequested _ token), diff.
  - intros t f l pr v Ht.
    destruct (isCancellationRequested _ token), diff; cbn in Ht;
      by apply lookup_delete_AwaitProvider in Ht as [_ ?].
Qed.

Lemma inv_dispose {Diff} env (w : World Diff) :
  inv w -> inv (step env w dispose).
Proof.
  intros (I1 & I2 & I3 & I4 & I5). cbn [step]. apply inv_cancel.
  apply inv_intro; cbn.
  - intros t Ht. by apply I1.
  - intros t Ht. by apply I1.
  - done.
  - by intros r.
  - done.
  - done.
Qed.

Lemma inv_step {Diff} env (w : World Diff) e : inv w -> inv (step env w e).
Proof.
  intros Hinv. destruct e as [| |b| | |token result|token diff].
  - cbn [step]. apply (inv_frame (cancel w)); try done;
      [by apply inv_cancel|by right].
  - cbn [step]. apply inv_doHighlight. apply (inv_frame w); try done.
    by right.
  - destruct b; cbn [step]; apply (inv_frame w); try done; by right.
  - by apply inv_dispose.
  - cbn [step]. destruct (timer w); [|done].
    apply inv_doHighlight. apply (inv_frame w); try done. by right.
  - by apply inv_providerResponds.
  - by apply inv_diffResponds.
Qed.

Lemma inv_run {Diff} (trace : list (Env * Event Diff)) : forall w,
  inv w -> inv (run w trace).
Proof.
  induction trace as [|[env e] trace IH]; intros w Hinv; [done|].
  cbn [run fold_left fst snd]. apply IH. by apply inv_step.
Qed.

Lemma inv_reachable {Diff} (trace : list (Env * Event Diff)) :
  inv (run constructor trace).
Proof. apply inv_run, inv_constructor. Qed.

(** X20: the source the buffer holds is never a cancelled one: [cancel] clears
    the field each time it cancels, and a new source is a fresh one. *)
Theorem current_source_is_not_cancelled {Diff}
    (trace : list (Env * Event Diff)) token :
  tokenSource (this (run constructor trace)) = Some token ->
  token ∉ cancelled (run constructor trace).
Proof.
  intros Hts. destruct (inv_reachable trace) as (I1 & _).
  by destruct (I1 _ Hts).
Qed.

Lemma current_source_is_not_cancelled_witness :
  1%nat ∉ cancelled
    (run (Diff := unit) constructor
       (Examples.first_cycle
          ++ [ (Examples.env_on, onChange); (Examples.env_on, timerFires);
               (Examples.env_on, setState true) ])).
Proof.
  apply (current_source_is_not_cancelled
           (Examples.first_cycle
              ++ [ (Examples.env_on, onChange); (Examples.env_on, timerFires);
                   (Examples.env_on, setState true) ]) 1%nat).
  by vm_compute.
Defined.

(** X21: a cached result always has its token array: whenever
    [previousResults] is set, its [tokens] is an array, so that line 123
    of a later delta response finds an array to splice. *)
Theorem cache_has_its_array {Diff} (trace : list (Env * Event Diff)) r :
  previousResults (this (run constructor trace)) = Some r ->
  exists array ts,
    tokens r = Some array
    /\ arrays (run constructor trace) !! array = Some ts
    /\ cached_tokens (run constructor trace) = Some ts.
Proof.
  intros Hp. destruct (inv_reachable trace) as (_ & _ & I3 & _).
  destruct (I3 r Hp) as (array & Hr & [ts Hts]). exists array, ts.
  unfold cached_tokens. rewrite Hp. destruct r as [v rid tk]. cbn in Hr.
  by subst tk.
Qed.

Lemma cache_has_its_array_witness :
  exists array ts,
    tokens {| version := 1; resultId := Some "r1"%string;
              tokens := Some 0%nat |} = Some array
    /\ arrays (run (Diff := unit) constructor Examples.first_cycle) !! array
       = Some ts
    /\ cached_tokens (run (Diff := unit) constructor Examples.first_cycle)
       = Some ts.
Proof.
  apply (cache_has_its_array (Diff := unit) Examples.first_cycle
           {| version := 1; resultId := Some "r1"%string;
              tokens := Some 0%nat |}).
  by vm_compute.
Defined.

(** X22: a response with a token array of its own, to a request that is not
    cancelled, always reaches the cache: the legend the request holds is
    never missing, and line 131 caches the array, a new one, under the
    version of the request and the result id of the response before the
    array is decoded. When the decoding returns, it becomes the snapshot
    and the items go to the diff collaborator; when [Range.create]
    refuses a range, the snapshot stays as it was, the cache is not taken
    back, and the error is logged, or rejects the promise of a forced
    refresh. *)
Theorem full_response_is_always_cached {Diff}
    (trace : list (Env * Event Diff)) env token forced l previousResult v
    rid data :
  suspended (run constructor trace) !! token
  = Some (AwaitProvider forced l previousResult v) ->
  token ∉ cancelled (run constructor trace) ->
  exists legend,
    l = Some legend
    /\ arrays (run constructor trace) !! token = None
    /\ previousResults
         (this (step env (run constructor trace)
                  (providerResponds token (Some (SemanticTokens rid data)))))
       = Some {| version := v; resultId := rid; tokens := Some token |}
    /\ arrays (step env (run constructor trace)
                 (providerResponds token (Some (SemanticTokens rid data))))
       = <[ token := data ]> (arrays (run constructor trace))
    /\ match Decoder.decode legend data with
       | Return items =>
           highlights
             (this (step env (run constructor trace)
                      (providerResponds token
                         (Some (SemanticTokens rid data)))))
           = Some items
           /\ calls (step env (run constructor trace)
                       (providerResponds token
                          (Some (SemanticTokens rid data))))
              = calls (run constructor trace) ++ [diffHighlights items]
       | Throw e =>
           highlights
             (this (step env (run constructor trace)
                      (providerResponds token
                         (Some (SemanticTokens rid data)))))
           = highlights (this (run constructor trace))
           /\ calls (step env (run constructor trace)
                       (providerResponds token
                          (Some (SemanticTokens rid data))))
              = calls (run constructor trace)
                ++ [if forced then rejected e else logError e]
       end.
Proof.
  intros Hs Hc. destruct (inv_reachable trace) as (_ & _ & _ & I4 & _).
  destruct (I4 _ _ _ _ _ Hs) as ([legend ->] & _ & Hn & _). exists legend.
  split; [done|]. split; [done|].
  rewrite (response_taken env _ token forced legend previousResult v
             (SemanticTokens rid data) token data Hs Hc
             (tokens_of_full token previousResult rid data _)).
  destruct (Decoder.decode legend data); [done|]. by destruct forced.
Qed.

Lemma full_response_is_always_cached_witness :
  exists legend,
    Some Examples.legend_vf = Some legend
    /\ arrays (run (Diff := unit) constructor
                 [(Examples.env_on, timerFires)]) !! 0%nat = None
    /\ previousResults
         (this (step Examples.env_on
                  (run (Diff := unit) constructor
                     [(Examples.env_on, timerFires)])
                  (providerResponds 0
                     (Some (SemanticTokens (Some "r1"%string)
                              [0;2147483647;1;0;0])))))
       = Some {| version := 1; resultId := Some "r1"%string;
                 tokens := Some 0%nat |}
    /\ arrays (step Examples.env_on
                 (run (Diff := unit) constructor
                    [(Examples.env_on, timerFires)])
                 (providerResponds 0
                    (Some (SemanticTokens (Some "r1"%string)
                             [0;2147483647;1;0;0]))))
       = <[ 0%nat := [0;2147483647;1;0;0] ]>
           (arrays (run (Diff := unit) constructor
                      [(Examples.env_on, timerFires)]))
    /\ match Decoder.decode legend [0;2147483647;1;0;0] with
       | Return items =>
           highlights
             (this (step Examples.env_on
                      (run (Diff := unit) constructor
                         [(Examples.env_on, timerFires)])
                      (providerResponds 0
                         (Some (SemanticTokens (Some "r1"%string)
                                  [0;2147483647;1;0;0])))))
           = Some items
           /\ calls (step Examples.env_on
                       (run (Diff := unit) constructor
                          [(Examples.env_on, timerFires)])
                       (providerResponds 0
                          (Some (SemanticTokens (Some "r1"%string)
                                   [0;2147483647;1;0;0]))))
              = calls (run (Diff := unit) constructor
                         [(Examples.env_on, timerFires)])
                ++ [diffHighlights items]
       | Throw e =>
           highlights
             (this (step Examples.env_on
                      (run (Diff := unit) constructor
                         [(Examples.env_on, timerFires)])
                      (providerResponds 0
                         (Some (SemanticTokens (Some "r1"%string)
                                  [0;2147483647;1;0;0])))))
           = highlights
               (this (run (Diff := unit) constructor
                        [(Examples.env_on, timerFires)]))
           /\ calls (step Examples.env_on
                       (run (Diff := unit) constructor
                          [(Examples.env_on, timerFires)])
                       (providerResponds 0
                          (Some (SemanticTokens (Some "r1"%string)
                                   [0;2147483647;1;0;0]))))
              = calls (run (Diff := unit) constructor
                         [(Examples.env_on, timerFires)])
                ++ [logError e]
       end.
Proof.
  apply (full_response_is_always_cached (Diff := unit)
           [(Examples.env_on, timerFires)] Examples.env_on 0%nat false
           (Some Examples.legend_vf) None 1 (Some "r1"%string)
           [0;2147483647;1;0;0]).
  - by vm_compute.
  - by vm_compute.
Defined.

(** X23: the version kept with a result is the version of the document when
    the request was made, whatever it is when the response comes. *)
Theorem previousVersion_is_of_the_request {Diff}
    (trace : list (Env * Event Diff)) env env' doc rid data :
  enabled env = true ->
  getDocument env = Some doc ->
  previousVersion
    (this (run (run constructor trace)
             [ (env, forceHighlight);
               (env', providerResponds (sources (run constructor trace))
                        (Some (SemanticTokens rid data))) ]))
  = Some (textDocument_version doc).
Proof.
  intros Hen Hdoc. set (w := run constructor trace).
  destruct (inv_reachable trace) as (I1 & I2 & _). fold w in I1, I2.
  apply enabled_true_iff in Hen as Hen'.
  destruct Hen' as (_ & doc' & Hdoc' & _ & [legend Hl] & _).
  assert (doc' = doc) as -> by congruence.
  cbn [run fold_left fst snd]. set (w1' := step env w forceHighlight).
  assert (suspended w1' !! sources w
          = Some (AwaitProvider true (Some legend)
                    (previousResults (this w)) (textDocument_version doc)))
    as Hs.
  { subst w1'. cbn [step]. rewrite (doHighlight_enabled _ _ _ doc Hen Hdoc).
    cbn. by rewrite lookup_insert_eq, Hl. }
  assert (sources w ∉ cancelled w1') as Hc.
  { subst w1'. cbn [step]. rewrite (doHighlight_enabled _ _ _ doc Hen Hdoc).
    cbn. destruct (tokenSource (this w)) as [t|] eqn:E.
    - intros [Hin|Hin]%elem_of_union.
      + apply elem_of_singleton in Hin. destruct (I1 _ eq_refl). lia.
      + specialize (I2 _ Hin). lia.
    - intros Hin. specialize (I2 _ Hin). lia. }
  rewrite (response_taken env' w1' _ true legend _ _
             (SemanticTokens rid data) (sources w) data Hs Hc
             (tokens_of_full _ _ rid data _)).
  by destruct (Decoder.decode legend data).
Qed.

Lemma previousVersion_is_of_the_request_witness :
  previousVersion
    (this (run (run (Diff := unit) constructor Examples.first_cycle)
             [ (Examples.env_on, forceHighlight);
               ({| config_enabled := false; getDocument := None |},
                providerResponds
                  (sources
                     (run (Diff := unit) constructor Examples.first_cycle))
                  (Some (SemanticTokens (Some "r2"%string) [0;0;4;1;0]))) ]))
  = Some (textDocument_version Examples.doc_on).
Proof.
  apply (previousVersion_is_of_the_request (Diff := unit) Examples.first_cycle
           Examples.env_on {| config_enabled := false; getDocument := None |}
           Examples.doc_on (Some "r2"%string) [0;0;4;1;0]).
  - reflexivity.
  - reflexivity.
Defined.

Lemma app_one_not_self {A} (l : list A) (x : A) : l <> l ++ [x].
Proof.
  intros H. apply (f_equal List.length) in H.
  rewrite length_app in H. simpl in H. lia.
Qed.

Lemma highlight_loop_Throw rels : forall line char res e,
  Decoder.highlight_loop rels line char res = Throw e ->
  exists one two three four,
    e = Error "Range#create called with invalid arguments"
          [one; two; three; four].
Proof.
  induction rels as [|rel rels IH]; intros line char res e; [done|].
  cbn [Decoder.highlight_loop]. cbv zeta.
  match goal with
  | |- context [Decoder.Range_create ?a ?b ?c ?d] =>
      destruct (Decoder.Range_create a b c d) as [range|e'] eqn:E
  end.
  - apply IH.
  - intros [= <-]. unfold Decoder.Range_create in E.
    match type of E with
    | (if ?b then _ else _) = _ => destruct b; [done|]
    end.
    injection E as <-. by eauto.
Qed.

(** What a taken response logs or rejects with is what the decoder
    threw. *)
Lemma taken_fails {Diff} env (w : World Diff) token forced legend pr v
    result array ts e :
  suspended w !! token = Some (AwaitProvider forced (Some legend) pr v) ->
  token ∉ cancelled w ->
  tokens_of token pr result (set_suspended (delete token) w)
  = (set_arrays (insert array ts) (set_suspended (delete token) w),
     Return (Some array)) ->
  calls (step env w (providerResponds token (Some result)))
  = calls w ++ [logError e]
  \/ calls (step env w (providerResponds token (Some result)))
     = calls w ++ [rejected e] ->
  cached_tokens (step env w (providerResponds token (Some result))) = Some ts
  /\ Decoder.decode legend ts = Throw e.
Proof.
  intros Hs Hc Ht.
  rewrite (response_taken env w token forced legend pr v result array ts
             Hs Hc Ht).
  destruct (Decoder.decode legend ts) as [items|e'].
  - cbn. intros [H|H]; by apply app_inj_tail in H as [_ ?].
  - unfold cached_tokens. cbn. rewrite lookup_insert_eq. intros H.
    split; [done|]. f_equal.
    destruct forced, H as [H|H]; cbn in H;
      apply app_inj_tail in H as [_ H]; congruence.
Qed.

(** X24: the two ways a response fails. The error that a response leads
    to is either the [TypeError] of a delta response to a request that
    started from no previous result, which leaves the cache as it is, or
    the error of [Range.create] on the array that line 131 has just
    cached. *)
Theorem response_fails_in_two_ways {Diff}
    (trace : list (Env * Event Diff)) env token result e :
  calls (step env (run constructor trace) (providerResponds token result))
  = calls (run constructor trace) ++ [logError e]
  \/ calls (step env (run constructor trace) (providerResponds token result))
     = calls (run constructor trace) ++ [rejected e] ->
  exists forced l previousResult v,
    suspended (run constructor trace) !! token
    = Some (AwaitProvider forced l previousResult v)
    /\ ((e = TypeError
         /\ previousResult = None
         /\ (exists rid edits, result = Some (SemanticTokensDelta rid edits))
         /\ this (step env (run constructor trace)
                    (providerResponds token result))
            = this (run constructor trace))
        \/ (exists legend ts one two three four,
              l = Some legend
              /\ cached_tokens
                   (step env (run constructor trace)
                      (providerResponds token result))
                 = Some ts
              /\ Decoder.decode legend ts = Throw e
              /\ e = Error "Range#create called with invalid arguments"
                       [one; two; three; four])).
Proof.
  set (w := run constructor trace).
  destruct (inv_reachable trace) as (_ & _ & _ & I4 & _). fold w in I4.
  destruct (suspended w !! token) as [[forced l pr v|forced]|] eqn:Hs.
  2,3: cbn [step]; rewrite Hs; intros [H|H]; by apply app_one_not_self in H.
  destruct (decide (token ∈ cancelled w)) as [Hc|Hc].
  { cbn [step]. rewrite Hs.
    unfold doHighlight_items. rewrite resume_discarded by (by left).
    intros [H|H]; by apply app_one_not_self in H. }
  destruct result as [result|].
  2: { cbn [step]. rewrite Hs.
       unfold doHighlight_items. rewrite resume_discarded by (by right).
       intros [H|H]; by apply app_one_not_self in H. }
  destruct (I4 _ _ _ _ _ Hs) as ([legend ->] & Hpr & _).
  intros H. exists forced, (Some legend), pr, v. split; [done|].
  assert (forall array ts,
            tokens_of token pr result (set_suspended (delete token) w)
            = (set_arrays (insert array ts) (set_suspended (delete token) w),
               Return (Some array)) ->
            exists legend' ts' one two three four,
              Some legend = Some legend'
              /\ cached_tokens
                   (step env w (providerResponds token (Some result)))
                 = Some ts'
              /\ Decoder.decode legend' ts' = Throw e
              /\ e = Error "Range#create called with invalid arguments"
                       [one; two; three; four]) as Htaken.
  { intros array ts Ht.
    destruct (taken_fails env w token forced legend pr v result array ts e
                Hs Hc Ht H) as [Hcached Hdec].
    destruct (highlight_loop_Throw _ _ _ _ _ Hdec)
      as (one & two & three & four & He).
    by exists legend, ts, one, two, three, four. }
  destruct result as [rid data|rid edits].
  - right. apply (Htaken token data). apply tokens_of_full.
  - destruct pr as [r|].
    + destruct (Hpr r eq_refl) as (array & Hr & _).
      right.
      apply (Htaken array (DeltaApplier.apply_edits (content w array) edits)).
      by apply tokens_of_delta.
    + left. clear Htaken. revert H. cbn [step]. rewrite Hs.
      unfold doHighlight_items, requestHighlights_resume,
        isCancellationRequested.
      cbn. rewrite bool_decide_eq_false_2 by done.
      intros H. assert (e = TypeError) as ->.
      { destruct forced, H as [H|H]; cbn in H;
          apply app_inj_tail in H as [_ H]; congruence. }
      split; [done|]. split; [done|]. split; [by eauto|by destruct forced].
Qed.

Lemma response_fails_in_two_ways_witness :
  exists forced l previousResult v,
    suspended (run (Diff := unit) constructor
                 [(Examples.env_on, timerFires)]) !! 0%nat
    = Some (AwaitProvider forced l previousResult v)
    /\ ((Error "Range#create called with invalid arguments"
           [JS.Num 0; JS.Num 2147483647; JS.Num 0; JS.Num 2147483648]
         = TypeError
         /\ previousResult = None
         /\ (exists rid edits,
               Some (SemanticTokens None [0;2147483647;1;0;0])
               = Some (SemanticTokensDelta rid edits))
         /\ this (step Examples.env_on
                    (run (Diff := unit) constructor
                       [(Examples.env_on, timerFires)])
                    (providerResponds 0
                       (Some (SemanticTokens None [0;2147483647;1;0;0]))))
            = this (run (Diff := unit) constructor
                      [(Examples.env_on, timerFires)]))
        \/ (exists legend ts one two three four,
              l = Some legend
              /\ cached_tokens
                   (step Examples.env_on
                      (run (Diff := unit) constructor
                         [(Examples.env_on, timerFires)])
                      (providerResponds 0
                         (Some (SemanticTokens None [0;2147483647;1;0;0]))))
                 = Some ts
              /\ Decoder.decode legend ts
                 = Throw
                     (Error "Range#create called with invalid arguments"
                        [JS.Num 0; JS.Num 2147483647; JS.Num 0;
                         JS.Num 2147483648])
              /\ Error "Range#create called with invalid arguments"
                   [JS.Num 0; JS.Num 2147483647; JS.Num 0; JS.Num 2147483648]
                 = Error "Range#create called with invalid arguments"
                     [one; two; three; four])).
Proof.
  apply (response_fails_in_two_ways (Diff := unit)
           [(Examples.env_on, timerFires)] Examples.env_on 0%nat
           (Some (SemanticTokens None [0;2147483647;1;0;0]))
           (Error "Range#create called with invalid arguments"
              [JS.Num 0; JS.Num 2147483647; JS.Num 0; JS.Num 2147483648])).
  left. by vm_compute.
Defined.

Lemma delta_step_fields {Diff} env (w : World Diff) token forced legend r
    array v rid edits :
  suspended w !! token = Some (AwaitProvider forced (Some legend) (Some r) v) ->
  token ∉ cancelled w ->
  tokens r = Some array ->
  let w' := step env w (providerResponds token
                          (Some (SemanticTokensDelta rid edits))) in
  content w' array = DeltaApplier.apply_edits (content w array) edits
  /\ cancelled w' = cancelled w
  /\ forall t, t <> token -> suspended w' !! t = suspended w !! t.
Proof.
  intros Hs Hc Hr w'. subst w'.
  rewrite (response_taken env w token forced legend (Some r) v
             (SemanticTokensDelta rid edits) array _ Hs Hc
             (tokens_of_delta token r array rid edits w Hr)).
  destruct (Decoder.decode legend _).
  - split; [unfold content; cbn; by rewrite lookup_insert_eq|].
    split; [done|]. intros t Hne. cbn.
    by rewrite lookup_insert_ne, lookup_delete_ne.
  - split; [unfold content; cbn; by rewrite lookup_insert_eq|].
    split; [done|]. intros t Hne. cbn. by rewrite lookup_delete_ne.
Qed.

(** X25: two requests in flight that hold the same previous result hold
    the same array: when each is answered by a delta, the edits of the
    second response are spliced into what the first response left, not
    into the array as it was when the requests were made. *)
Theorem deltas_accumulate {Diff} env env' (w : World Diff) token token'
    forced forced' legend legend' r r' array v v' rid rid' edits edits' :
  token <> token' ->
  suspended w !! token = Some (AwaitProvider forced (Some legend) (Some r) v) ->
  suspended w !! token'
  = Some (AwaitProvider forced' (Some legend') (Some r') v') ->
  token ∉ cancelled w ->
  token' ∉ cancelled w ->
  tokens r = Some array ->
  tokens r' = Some array ->
  cached_tokens
    (step env'
       (step env w
          (providerResponds token (Some (SemanticTokensDelta rid edits))))
       (providerResponds token' (Some (SemanticTokensDelta rid' edits'))))
  = Some (DeltaApplier.apply_edits
            (DeltaApplier.apply_edits (content w array) edits) edits').
Proof.
  intros Hne Hs Hs' Hc Hc' Hr Hr'.
  destruct (delta_step_fields env w token forced legend r array v rid edits
              Hs Hc Hr) as (Hcontent & Hcancelled & Hsuspended).
  set (w1 := step env w _) in *.
  assert (suspended w1 !! token'
          = Some (AwaitProvider forced' (Some legend') (Some r') v')) as Hs1.
  { rewrite Hsuspended; [done|]. by intros ->. }
  assert (token' ∉ cancelled w1) as Hc1 by (by rewrite Hcancelled).
  destruct (delta_response_cache env' w1 token' forced' legend' r' array v'
              rid' edits' Hs1 Hc1 Hr') as [Hp Ha].
  unfold cached_tokens. rewrite Hp. cbv beta iota.
  rewrite Ha, lookup_insert_eq. by rewrite Hcontent.
Qed.

Lemma deltas_accumulate_witness :
  cached_tokens
    (step Examples.env_on
       (step Examples.env_on Examples.two_in_flight
          (providerResponds 1
             (Some (SemanticTokensDelta (Some "r2"%string)
                [ {| DeltaApplier.start := 5; DeltaApplier.deleteCount := 0;
                     DeltaApplier.data := [1;0;2;0;0] |} ]))))
       (providerResponds 2
          (Some (SemanticTokensDelta (Some "r3"%string)
             [ {| DeltaApplier.start := 5; DeltaApplier.deleteCount := 0;
                  DeltaApplier.data := [1;0;2;0;0] |} ]))))
  = Some (DeltaApplier.apply_edits
            (DeltaApplier.apply_edits (content Examples.two_in_flight 0)
               [ {| DeltaApplier.start := 5; DeltaApplier.deleteCount := 0;
                    DeltaApplier.data := [1;0;2;0;0] |} ])
            [ {| DeltaApplier.start := 5; DeltaApplier.deleteCount := 0;
                 DeltaApplier.data := [1;0;2;0;0] |} ]).
Proof.
  apply (deltas_accumulate Examples.env_on Examples.env_on
           Examples.two_in_flight 1%nat 2%nat true true Examples.legend_vf
           Examples.legend_vf
           {| version := 1; resultId := Some "r1"%string;
              tokens := Some 0%nat |}
           {| version := 1; resultId := Some "r1"%string;
              tokens := Some 0%nat |}
           0%nat 1 1).
  - done.
  - by vm_compute.
  - by vm_compute.
  - by vm_compute.
  - by vm_compute.
  - reflexivity.
  - reflexivity.
Defined.

End Reachable.

(** ** The modifier bits of a quintuple *)

Section Modifiers.

Import Decoder.

Lemma wrap32_mod (x : Z) : JS.wrap32 x mod 2 ^ 32 = x mod 2 ^ 32.
Proof.
  unfold JS.wrap32. destruct (2 ^ 31 <=? x mod 2 ^ 32).
  - replace (x mod 2 ^ 32 - 2 ^ 32) with (x mod 2 ^ 32 + (-1) * 2 ^ 32) by lia.
    rewrite Z.mod_add by lia. apply Z.mod_mod. lia.
  - apply Z.mod_mod. lia.
Qed.

Lemma wrap32_range (x : Z) : - 2 ^ 31 <= JS.wrap32 x < 2 ^ 31.
Proof.
  unfold JS.wrap32. pose proof (Z.mod_pos_bound x (2 ^ 32) ltac:(lia)).
  destruct (Z.leb_spec (2 ^ 31) (x mod 2 ^ 32)); lia.
Qed.

Lemma testbit_low (x y : Z) (i : Z) :
  x mod 2 ^ 32 = y mod 2 ^ 32 -> 0 <= i < 32 -> Z.testbit x i = Z.testbit y i.
Proof.
  intros H Hi.
  rewrite <- (Z.mod_pow2_bits_low x 32 i), <- (Z.mod_pow2_bits_low y 32 i)
    by lia.
  by rewrite H.
Qed.

(** Above bit 31 a number in the signed 32-bit range repeats its sign. *)
Lemma testbit_int32_high (y : Z) (i : Z) :
  - 2 ^ 31 <= y < 2 ^ 31 -> 31 <= i -> Z.testbit y i = Z.testbit y 31.
Proof.
  intros Hy Hi. destruct (Z.neg_nonneg_cases y) as [Hn|Hn].
  - rewrite !Z.bits_above_log2_neg; try done.
    + destruct (Z.eq_dec (Z.pred (- y)) 0) as [->|Hne]; [done|].
      apply Z.log2_lt_pow2; lia.
    + destruct (Z.eq_dec (Z.pred (- y)) 0) as [->|Hne]; [simpl; lia|].
      assert (Z.log2 (Z.pred (- y)) < 31); [|lia]. apply Z.log2_lt_pow2; lia.
  - rewrite !Z.bits_above_log2; try done.
    + destruct (Z.eq_dec y 0) as [->|Hne]; [done|]. apply Z.log2_lt_pow2; lia.
    + destruct (Z.eq_dec y 0) as [->|Hne]; [simpl; lia|].
      assert (Z.log2 y < 31); [|lia]. apply Z.log2_lt_pow2; lia.
Qed.

Lemma testbit_wrap32 (x i : Z) :
  0 <= i -> Z.testbit (JS.wrap32 x) i = Z.testbit x (Z.min i 31).
Proof.
  intros Hi. destruct (Z.lt_ge_cases i 32).
  - destruct (Z.le_gt_cases i 31).
    + rewrite Z.min_l by lia. apply testbit_low; [apply wrap32_mod|lia].
    + lia.
  - rewrite Z.min_r by lia.
    rewrite (testbit_int32_high _ i (wrap32_range x)) by lia.
    apply testbit_low; [apply wrap32_mod|lia].
Qed.

Lemma land_pow2_zero (e k : Z) :
  0 <= k < 32 ->
  (Z.land (JS.wrap32 e) (JS.wrap32 (JS.wrap32 (2 ^ k))) =? 0)
  = negb (Z.testbit e k).
Proof.
  intros Hk.
  assert (forall i, 0 <= i ->
            Z.testbit (Z.land (JS.wrap32 e) (JS.wrap32 (JS.wrap32 (2 ^ k)))) i
            = Z.testbit e (Z.min i 31) && (k =? Z.min (Z.min i 31) 31))
    as Hbits.
  { intros i Hi. rewrite Z.land_spec, !testbit_wrap32 by lia.
    by rewrite Z.pow2_bits_eqb by lia. }
  destruct (Z.testbit e k) eqn:He; cbn [negb].
  - apply Z.eqb_neq. intros H0.
    specialize (Hbits k ltac:(lia)). rewrite H0, Z.bits_0 in Hbits.
    rewrite !Z.min_l in Hbits by lia. rewrite He, Z.eqb_refl in Hbits. done.
  - apply Z.eqb_eq. apply Z.bits_inj'. intros i Hi.
    rewrite Hbits, Z.bits_0 by done.
    destruct (Z.eqb_spec k (Z.min (Z.min i 31) 31)) as [Hk'|];
      [|by rewrite andb_false_r].
    replace (Z.min i 31) with k by lia. by rewrite He.
Qed.

(** [bits & (1 << m)] is truthy exactly when bit [m mod 32] of [bits] is
    set: the shift count wraps at 32. *)
Lemma truthy_band_shl (e : Z) (m : nat) :
  JS.truthy (JS.band (JS.Num e) (JS.shl 1 m))
  = Z.testbit e (Z.of_nat m mod 32).
Proof.
  unfold JS.truthy, JS.band, JS.shl, JS.ToInt32.
  change (JS.wrap32 1) with 1. rewrite Z.shiftl_1_l.
  rewrite land_pow2_zero by (apply Z.mod_pos_bound; lia).
  apply negb_involutive.
Qed.

Lemma filter_index_elem_of {A} (p : nat -> bool) (l : list A) : forall from x,
  x ∈ JS.filter_index p from l
  <-> exists i, l !! i = Some x /\ p (from + i)%nat = true.
Proof.
  induction l as [|y l IH]; intros from x; cbn [JS.filter_index].
  - split; [by intros ?%elem_of_nil|by intros (i & ? & _)].
  - assert (x ∈ JS.filter_index p (S from) l
            <-> exists i, l !! i = Some x /\ p (from + S i)%nat = true) as IH'.
    { rewrite IH. by setoid_rewrite Nat.add_succ_r. }
    destruct (p from) eqn:Hp.
    + rewrite elem_of_cons, IH'. split.
      * intros [->|(i & Hi & Hpi)].
        -- exists 0%nat. by rewrite Nat.add_0_r.
        -- by exists (S i).
      * intros ([|i] & Hi & Hpi).
        -- left. cbn in Hi. congruence.
        -- right. by exists i.
    + rewrite IH'. split.
      * intros (i & Hi & Hpi). by exists (S i).
      * intros ([|i] & Hi & Hpi).
        -- rewrite Nat.add_0_r in Hpi. congruence.
        -- by exists i.
Qed.

Lemma filter_index_none {A} (p : nat -> bool) (l : list A) :
  (forall m, p m = false) -> forall from, JS.filter_index p from l = [].
Proof.
  intros Hp. induction l as [|y l IH]; intros from; cbn [JS.filter_index];
    [done|]. by rewrite Hp.
Qed.

(** X6: the modifier names of a quintuple are the names of the legend at the
    positions whose bit is set in the fifth number, positions counting
    modulo 32; a group that lacks its fifth number has no modifier. *)
Theorem modifiers_are_the_set_bits legend (a b c d e : Z) (rest : list Z)
    (name : string) :
  (name ∈ tokenModifiers' (relative_at legend (a :: b :: c :: d :: e :: rest))
   <-> exists m : nat,
         tokenModifiers legend !! m = Some name
         /\ Z.testbit e (Z.of_nat m mod 32) = true)
  /\ tokenModifiers' (relative_at legend [a; b; c; d]) = [].
Proof.
  split.
  - unfold relative_at. cbn [tokenModifiers' JS.index lookup list_lookup].
    rewrite filter_index_elem_of. by setoid_rewrite truthy_band_shl.
  - unfold relative_at. cbn [tokenModifiers']. by apply filter_index_none.
Qed.

End Modifiers.
